(** * Stripe failed-payment monitor ([server.js]): model and properties

    A shallow embedding of the Express application of [server.js]: the
    bounded in-memory log ([addLog]), the alert text generator
    ([generateEmailContent]), the dispatcher ([sendEmailAlert]) and the
    HTTP handlers.  Handlers are programs of a small state-and-exception
    monad over the process state; the three outside parties (the clock,
    the text-generation service and the mail transport) and the process
    environment are gathered in a [Host] record, over which every
    statement quantifies.

    The webhook handler works on whatever [JSON.parse] returns, and hands
    the dispatcher whatever [event.data.object] holds: these are JSON
    values, and the property reads, the conversions of the template
    literals and of the division, and the exceptions they throw are those
    of ECMAScript, with the messages of V8.  The payment record of the
    specification, [FailedPayment], stands for the object with its
    properties; on such a payment the templates are shown never to throw.

    Limits of the model.  A handler runs from its first statement to its
    response; two requests interleaved at their [await]s are not
    modelled.  The set-up at module level (the [require]s and the
    construction of the client and of the transport object) is taken to
    succeed: the model starts at the listen callback.  A text is the byte
    sequence of its UTF-8 encoding, so a lone surrogate has no
    counterpart; upper case follows the case mappings of Unicode 14.0.
    Exhaustion of the stack or of the memory is not modelled. *)

From Stdlib Require Import ZArith String Ascii List Uint63 Floats Lia.
From stdpp Require Import base list gmap strings pretty.

Local Open Scope string_scope.
Local Open Scope list_scope.

(** ** JavaScript numbers: [Number.prototype.toFixed] and number to string

    Numbers are IEEE 754 binary64 values, here the primitive floats of the
    kernel.  A finite non-zero double is [m * 2^e] ([Prim2SF]); decimal
    renderings are computed on that exact value with integer arithmetic,
    as ECMAScript defines them. *)

Module Number.

Local Open Scope Z_scope.

(** Decimal digits of a non-negative integer. *)
Definition digits (n : Z) : string := pretty (Z.to_N n).

Fixpoint zeros (k : nat) : string :=
  match k with O => "" | S k' => String "0" (zeros k') end.

(** Exact comparison of the positive double [m * 2^e] with multiples of
    [10^p], cleared of denominators: [s * 10^p] is [s * scale_s e p] and
    a quarter of [2^e] is [scale_x e p] on a common integer scale, so
    that the midpoints to the neighbouring doubles are integers too. *)
Definition scale_x (e p : Z) : Z := 2 ^ Z.max (e - 2) 0 * 10 ^ Z.max (- p) 0.
Definition scale_s (e p : Z) : Z := 2 ^ Z.max (2 - e) 0 * 10 ^ Z.max p 0.

(** [10^p <= m * 2^e] *)
Definition pow10_le (m : positive) (e p : Z) : bool :=
  scale_s e p <=? 4 * Zpos m * scale_x e p.

(** The decimal exponent [q] with [10^q <= m * 2^e < 10^(q+1)].  With
    [t] the binary exponent of the leading bit, [q] is [t * log10 2]
    rounded down, give or take one: the search starts one below the
    estimate [t * 30103 / 100000] and climbs. *)
Fixpoint log10_from (fuel : nat) (m : positive) (e q : Z) : Z :=
  match fuel with
  | O => q
  | S fuel' =>
      if pow10_le m e (q + 1) then log10_from fuel' m e (q + 1) else q
  end.

Definition log10_floor (m : positive) (e : Z) : Z :=
  let t := e + Z.log2 (Zpos m) in
  log10_from 4 m e (t * 30103 / 100000 - 1).

(** The doubles that round to [m * 2^e] lie between the midpoints to its
    neighbours; below a power of two the lower neighbour is half as far.
    Both are given in quarters of [2^e]; the bounds belong to the
    interval when [m] is even (ties go to the even significand). *)
Definition midpoint_below (m : positive) (e : Z) : Z :=
  if (Zpos m =? 2 ^ 52) && (-1074 <? e) then 4 * Zpos m - 1
  else 4 * Zpos m - 2.
Definition midpoint_above (m : positive) : Z := 4 * Zpos m + 2.

Definition rounds_to (m : positive) (e p s : Z) : bool :=
  let v := s * scale_s e p in
  let lo := midpoint_below m e * scale_x e p in
  let hi := midpoint_above m * scale_x e p in
  if Z.even (Zpos m) then (lo <=? v) && (v <=? hi)
  else (lo <? v) && (v <? hi).

(** The [k]-digit candidates next to [m * 2^e]: the multiples of [10^p]
    just below and just above, [p = q - k + 1]; the nearer one that
    rounds back, an even last digit on a tie. *)
Definition candidate (m : positive) (e q k : Z) : option (Z * Z) :=
  let p := q - k + 1 in
  let x := 4 * Zpos m * scale_x e p in
  let u := scale_s e p in
  let below := x / u in
  let above := below + 1 in
  let ok_b := rounds_to m e p below in
  let ok_a := rounds_to m e p above in
  let d_b := x - below * u in
  let d_a := above * u - x in
  let take_below :=
    if ok_b && ok_a
    then (d_b <? d_a) || ((d_b =? d_a) && Z.even below)
    else ok_b in
  if take_below then Some (below, p)
  else if ok_a then Some (above, p) else None.

(** Shortest digit string: the least [k] with a candidate; seventeen
    digits always identify a double. *)
Fixpoint shortest_from (fuel : nat) (m : positive) (e q k : Z) : Z * Z :=
  match candidate m e q k, fuel with
  | Some sp, _ => sp
  | None, S fuel' => shortest_from fuel' m e q (k + 1)
  | None, O =>
      let p := q - k + 1 in
      ((4 * Zpos m * scale_x e p) / scale_s e p, p)
  end.

(** [(ds, n)]: the digits [ds] of the shortest decimal [s] and the
    exponent [n] with [s * 10^(n - k)] rounding to the double, [k] the
    length of [ds].  A candidate [10^k] is the single digit [1]. *)
Definition shortest (m : positive) (e : Z) : string * Z :=
  let q := log10_floor m e in
  let '(s, p) := shortest_from 16 m e q 1 in
  let ds := digits s in
  let k := Z.of_nat (String.length ds) in
  if s =? 10 ^ (k - 1) then ("1", p + k) else (ds, p + k).

Definition exponent_part (n : Z) : string :=
  "e" +:+ (if 0 <=? n - 1 then "+" else "-") +:+ digits (Z.abs (n - 1)).

(** Number::toString on a positive finite double (ECMAScript 6.1.6.1.20,
    radix 10). *)
Definition positive_toString (m : positive) (e : Z) : string :=
  let '(ds, n) := shortest m e in
  let k := Z.of_nat (String.length ds) in
  if (k <=? n) && (n <=? 21) then ds +:+ zeros (Z.to_nat (n - k))
  else if (0 <? n) && (n <=? 21) then
    substring 0 (Z.to_nat n) ds +:+ "." +:+
    substring (Z.to_nat n) (Z.to_nat (k - n)) ds
  else if (-6 <? n) && (n <=? 0) then
    "0." +:+ zeros (Z.to_nat (- n)) +:+ ds
  else if k =? 1 then ds +:+ exponent_part n
  else substring 0 1 ds +:+ "." +:+ substring 1 (Z.to_nat (k - 1)) ds
       +:+ exponent_part n.

Definition toString (x : float) : string :=
  match Prim2SF x with
  | S754_nan => "NaN"
  | S754_zero _ => "0"
  | S754_infinity s => if s then "-Infinity" else "Infinity"
  | S754_finite s m e =>
      (if s then "-" else "") +:+ positive_toString m e
  end.

(** The integer [n] for which [n / 100] is closest to [m * 2^e], the
    larger one when two are equally close. *)
Definition hundredths (m : positive) (e : Z) : Z :=
  if 0 <=? e then 100 * Zpos m * 2 ^ e
  else (200 * Zpos m + 2 ^ (- e)) / 2 ^ (1 - e).

(** The digits of [n] with a point before the last two, zero-padded. *)
Definition two_places (n : Z) : string :=
  digits (n / 100) +:+ "." +:+ digits (n mod 100 / 10) +:+ digits (n mod 10).

(** [x.toFixed(2)] (ECMAScript 21.1.3.3 with two fraction digits). *)
Definition toFixed2 (x : float) : string :=
  match Prim2SF x with
  | S754_nan => "NaN"
  | S754_infinity s => if s then "-Infinity" else "Infinity"
  | S754_zero _ => two_places 0
  | S754_finite s m e =>
      (if s then "-" else "") +:+
      (if PrimFloat.leb 1e21 (PrimFloat.abs x) then positive_toString m e
       else two_places (hundredths m e))
  end.

(** ** Text to number: [StringToNumber] *)

(** The double nearest to [a / b], to even on a tie, with the sign [s]:
    the quotient is taken with at least 64 bits, and the remainder tells
    on which side of the middle the exact value lies. *)
Definition nearest (s : bool) (a b : positive) : float :=
  let k := Z.max 0 (64 + Z.log2 (Zpos b) - Z.log2 (Zpos a)) in
  let '(q, r) := Z.div_eucl (Zpos a * 2 ^ k) (Zpos b) in
  let l :=
    if r =? 0 then loc_Exact else loc_Inexact (Z.compare (2 * r) (Zpos b)) in
  SF2Prim (binary_round_aux prec emax s q (- k) l).

(** [n * 10^e] for [n] of at most [count] decimal digits; beyond the range
    of the doubles the power is not computed. *)
Definition decimal (s : bool) (n count e : Z) : float :=
  match n with
  | Zpos m =>
      if 400 <? e then (if s then neg_infinity else infinity)
      else if count + e <? -400 then (if s then neg_zero else zero)
      else if 0 <=? e then nearest s (m * Z.to_pos (10 ^ e)) 1
      else nearest s m (Z.to_pos (10 ^ (- e)))
  | _ => if s then neg_zero else zero
  end.

Definition digit_of (radix : Z) (c : ascii) : option Z :=
  let n := Z.of_nat (nat_of_ascii c) in
  let v :=
    if (48 <=? n) && (n <=? 57) then n - 48
    else if (97 <=? n) && (n <=? 122) then n - 87
    else if (65 <=? n) && (n <=? 90) then n - 55
    else radix in
  if v <? radix then Some v else None.

(** The digits a text starts with: their value after [acc], their number
    after [count], and the rest of the text. *)
Fixpoint digits_of (radix : Z) (s : string) (acc count : Z)
  : Z * Z * string :=
  match s with
  | String c s' =>
      match digit_of radix c with
      | Some v => digits_of radix s' (radix * acc + v) (count + 1)
      | None => (acc, count, s)
      end
  | EmptyString => (acc, count, s)
  end.

Definition signed (s : string) : bool * string :=
  match s with
  | String "+" s' => (false, s')
  | String "-" s' => (true, s')
  | _ => (false, s)
  end.

(** [StrUnsignedDecimalLiteral], with the sign [s] read before it. *)
Definition unsigned_decimal (s : bool) (t : string) : float :=
  if String.eqb t "Infinity" then (if s then neg_infinity else infinity)
  else
    let '(n1, c1, r1) := digits_of 10 t 0 0 in
    let '(n, c2, r2) :=
      match r1 with
      | String "." r => digits_of 10 r n1 0
      | _ => (n1, 0, r1)
      end in
    if c1 + c2 =? 0 then nan
    else
      match r2 with
      | EmptyString => decimal s n (c1 + c2) (- c2)
      | String c r =>
          if Ascii.eqb c "e" || Ascii.eqb c "E" then
            let '(se, r3) := signed r in
            let '(x, cx, r4) := digits_of 10 r3 0 0 in
            if (cx =? 0) || negb (String.eqb r4 "") then nan
            else decimal s n (c1 + c2) ((if se then - x else x) - c2)
          else nan
      end.

(** The digits of a hexadecimal, octal or binary literal. *)
Definition radix_literal (radix : Z) (t : string) : float :=
  let '(n, c, r) := digits_of radix t 0 0 in
  if (c =? 0) || negb (String.eqb r "") then nan else decimal false n 0 0.

(** The white space and the line terminators of ECMAScript, in UTF-8. *)
Definition white_space : list string :=
  [ String "009" ""; String "010" ""; String "011" ""; String "012" "";
    String "013" ""; " ";
    String "194" (String "160" "");
    String "225" (String "154" (String "128" ""));
    String "226" (String "128" (String "128" ""));
    String "226" (String "128" (String "129" ""));
    String "226" (String "128" (String "130" ""));
    String "226" (String "128" (String "131" ""));
    String "226" (String "128" (String "132" ""));
    String "226" (String "128" (String "133" ""));
    String "226" (String "128" (String "134" ""));
    String "226" (String "128" (String "135" ""));
    String "226" (String "128" (String "136" ""));
    String "226" (String "128" (String "137" ""));
    String "226" (String "128" (String "138" ""));
    String "226" (String "128" (String "168" ""));
    String "226" (String "128" (String "169" ""));
    String "226" (String "128" (String "175" ""));
    String "226" (String "129" (String "159" ""));
    String "227" (String "128" (String "128" ""));
    String "239" (String "187" (String "191" "")) ].

Definition rev_string (s : string) : string :=
  string_of_list_ascii (rev (list_ascii_of_string s)).

(** [s] without the white space it starts with. *)
Fixpoint trim_start (fuel : nat) (spaces : list string) (s : string)
  : string :=
  match fuel with
  | O => s
  | S fuel' =>
      match List.find (fun w => String.prefix w s) spaces with
      | Some w =>
          trim_start fuel' spaces
            (substring (String.length w) (String.length s - String.length w) s)
      | None => s
      end
  end.

Definition trim (s : string) : string :=
  let s1 := trim_start (String.length s) white_space s in
  rev_string
    (trim_start (String.length s1) (map rev_string white_space)
       (rev_string s1)).

(** [StringToNumber] (ECMAScript 7.1.4.1.1): the empty text is [0], a text
    that is no numeric literal is NaN. *)
Definition StringToNumber (s : string) : float :=
  match trim s with
  | EmptyString => zero
  | String "0" (String c t) as u =>
      if Ascii.eqb c "x" || Ascii.eqb c "X" then radix_literal 16 t
      else if Ascii.eqb c "o" || Ascii.eqb c "O" then radix_literal 8 t
      else if Ascii.eqb c "b" || Ascii.eqb c "B" then radix_literal 2 t
      else unsigned_decimal false u
  | u => let '(sg, t) := signed u in unsigned_decimal sg t
  end.

End Number.

(** ** Strings

    A text is the sequence of the bytes of its UTF-8 encoding. *)

Definition LF : string := String "010"%char "".
Definition quot : string := String "034"%char "".

(** The lines of a template literal, joined by line feeds. *)
Fixpoint unlines (ls : list string) : string :=
  match ls with
  | [] => ""
  | [l] => l
  | l :: ls' => l +:+ LF +:+ unlines ls'
  end.

(** The upper-case letter of an ASCII letter; other bytes are kept. *)
Definition upper (c : ascii) : ascii :=
  let n := nat_of_ascii c in
  if (97 <=? n)%nat && (n <=? 122)%nat then ascii_of_nat (n - 32) else c.

(** The characters beyond ASCII that have an upper-case mapping, each with
    the text it maps to: the full case mappings of Unicode 14.0
    (UnicodeData and the unconditional part of SpecialCasing). *)
Definition case_table : list (string * string) := [
  ("µ", "Μ"); ("ß", "SS"); ("à", "À"); ("á", "Á");
  ("â", "Â"); ("ã", "Ã"); ("ä", "Ä"); ("å", "Å");
  ("æ", "Æ"); ("ç", "Ç"); ("è", "È"); ("é", "É");
  ("ê", "Ê"); ("ë", "Ë"); ("ì", "Ì"); ("í", "Í");
  ("î", "Î"); ("ï", "Ï"); ("ð", "Ð"); ("ñ", "Ñ");
  ("ò", "Ò"); ("ó", "Ó"); ("ô", "Ô"); ("õ", "Õ");
  ("ö", "Ö"); ("ø", "Ø"); ("ù", "Ù"); ("ú", "Ú");
  ("û", "Û"); ("ü", "Ü"); ("ý", "Ý"); ("þ", "Þ");
  ("ÿ", "Ÿ"); ("ā", "Ā"); ("ă", "Ă"); ("ą", "Ą");
  ("ć", "Ć"); ("ĉ", "Ĉ"); ("ċ", "Ċ"); ("č", "Č");
  ("ď", "Ď"); ("đ", "Đ"); ("ē", "Ē"); ("ĕ", "Ĕ");
  ("ė", "Ė"); ("ę", "Ę"); ("ě", "Ě"); ("ĝ", "Ĝ");
  ("ğ", "Ğ"); ("ġ", "Ġ"); ("ģ", "Ģ"); ("ĥ", "Ĥ");
  ("ħ", "Ħ"); ("ĩ", "Ĩ"); ("ī", "Ī"); ("ĭ", "Ĭ");
  ("į", "Į"); ("ı", "I"); ("ĳ", "Ĳ"); ("ĵ", "Ĵ");
  ("ķ", "Ķ"); ("ĺ", "Ĺ"); ("ļ", "Ļ"); ("ľ", "Ľ");
  ("ŀ", "Ŀ"); ("ł", "Ł"); ("ń", "Ń"); ("ņ", "Ņ");
  ("ň", "Ň"); ("ŉ", "ʼN"); ("ŋ", "Ŋ"); ("ō", "Ō");
  ("ŏ", "Ŏ"); ("ő", "Ő"); ("œ", "Œ"); ("ŕ", "Ŕ");
  ("ŗ", "Ŗ"); ("ř", "Ř"); ("ś", "Ś"); ("ŝ", "Ŝ");
  ("ş", "Ş"); ("š", "Š"); ("ţ", "Ţ"); ("ť", "Ť");
  ("ŧ", "Ŧ"); ("ũ", "Ũ"); ("ū", "Ū"); ("ŭ", "Ŭ");
  ("ů", "Ů"); ("ű", "Ű"); ("ų", "Ų"); ("ŵ", "Ŵ");
  ("ŷ", "Ŷ"); ("ź", "Ź"); ("ż", "Ż"); ("ž", "Ž");
  ("ſ", "S"); ("ƀ", "Ƀ"); ("ƃ", "Ƃ"); ("ƅ", "Ƅ");
  ("ƈ", "Ƈ"); ("ƌ", "Ƌ"); ("ƒ", "Ƒ"); ("ƕ", "Ƕ");
  ("ƙ", "Ƙ"); ("ƚ", "Ƚ"); ("ƞ", "Ƞ"); ("ơ", "Ơ");
  ("ƣ", "Ƣ"); ("ƥ", "Ƥ"); ("ƨ", "Ƨ"); ("ƭ", "Ƭ");
  ("ư", "Ư"); ("ƴ", "Ƴ"); ("ƶ", "Ƶ"); ("ƹ", "Ƹ");
  ("ƽ", "Ƽ"); ("ƿ", "Ƿ"); ("ǅ", "Ǆ"); ("ǆ", "Ǆ");
  ("ǈ", "Ǉ"); ("ǉ", "Ǉ"); ("ǋ", "Ǌ"); ("ǌ", "Ǌ");
  ("ǎ", "Ǎ"); ("ǐ", "Ǐ"); ("ǒ", "Ǒ"); ("ǔ", "Ǔ");
  ("ǖ", "Ǖ"); ("ǘ", "Ǘ"); ("ǚ", "Ǚ"); ("ǜ", "Ǜ");
  ("ǝ", "Ǝ"); ("ǟ", "Ǟ"); ("ǡ", "Ǡ"); ("ǣ", "Ǣ");
  ("ǥ", "Ǥ"); ("ǧ", "Ǧ"); ("ǩ", "Ǩ"); ("ǫ", "Ǫ");
  ("ǭ", "Ǭ"); ("ǯ", "Ǯ"); ("ǰ", "J̌"); ("ǲ", "Ǳ");
  ("ǳ", "Ǳ"); ("ǵ", "Ǵ"); ("ǹ", "Ǹ"); ("ǻ", "Ǻ");
  ("ǽ", "Ǽ"); ("ǿ", "Ǿ"); ("ȁ", "Ȁ"); ("ȃ", "Ȃ");
  ("ȅ", "Ȅ"); ("ȇ", "Ȇ"); ("ȉ", "Ȉ"); ("ȋ", "Ȋ");
  ("ȍ", "Ȍ"); ("ȏ", "Ȏ"); ("ȑ", "Ȑ"); ("ȓ", "Ȓ");
  ("ȕ", "Ȕ"); ("ȗ", "Ȗ"); ("ș", "Ș"); ("ț", "Ț");
  ("ȝ", "Ȝ"); ("ȟ", "Ȟ"); ("ȣ", "Ȣ"); ("ȥ", "Ȥ");
  ("ȧ", "Ȧ"); ("ȩ", "Ȩ"); ("ȫ", "Ȫ"); ("ȭ", "Ȭ");
  ("ȯ", "Ȯ"); ("ȱ", "Ȱ"); ("ȳ", "Ȳ"); ("ȼ", "Ȼ");
  ("ȿ", "Ȿ"); ("ɀ", "Ɀ"); ("ɂ", "Ɂ"); ("ɇ", "Ɇ");
  ("ɉ", "Ɉ"); ("ɋ", "Ɋ"); ("ɍ", "Ɍ"); ("ɏ", "Ɏ");
  ("ɐ", "Ɐ"); ("ɑ", "Ɑ"); ("ɒ", "Ɒ"); ("ɓ", "Ɓ");
  ("ɔ", "Ɔ"); ("ɖ", "Ɖ"); ("ɗ", "Ɗ"); ("ə", "Ə");
  ("ɛ", "Ɛ"); ("ɜ", "Ɜ"); ("ɠ", "Ɠ"); ("ɡ", "Ɡ");
  ("ɣ", "Ɣ"); ("ɥ", "Ɥ"); ("ɦ", "Ɦ"); ("ɨ", "Ɨ");
  ("ɩ", "Ɩ"); ("ɪ", "Ɪ"); ("ɫ", "Ɫ"); ("ɬ", "Ɬ");
  ("ɯ", "Ɯ"); ("ɱ", "Ɱ"); ("ɲ", "Ɲ"); ("ɵ", "Ɵ");
  ("ɽ", "Ɽ"); ("ʀ", "Ʀ"); ("ʂ", "Ʂ"); ("ʃ", "Ʃ");
  ("ʇ", "Ʇ"); ("ʈ", "Ʈ"); ("ʉ", "Ʉ"); ("ʊ", "Ʊ");
  ("ʋ", "Ʋ"); ("ʌ", "Ʌ"); ("ʒ", "Ʒ"); ("ʝ", "Ʝ");
  ("ʞ", "Ʞ"); ("ͅ", "Ι"); ("ͱ", "Ͱ"); ("ͳ", "Ͳ");
  ("ͷ", "Ͷ"); ("ͻ", "Ͻ"); ("ͼ", "Ͼ"); ("ͽ", "Ͽ");
  ("ΐ", "Ϊ́"); ("ά", "Ά"); ("έ", "Έ"); ("ή", "Ή");
  ("ί", "Ί"); ("ΰ", "Ϋ́"); ("α", "Α"); ("β", "Β");
  ("γ", "Γ"); ("δ", "Δ"); ("ε", "Ε"); ("ζ", "Ζ");
  ("η", "Η"); ("θ", "Θ"); ("ι", "Ι"); ("κ", "Κ");
  ("λ", "Λ"); ("μ", "Μ"); ("ν", "Ν"); ("ξ", "Ξ");
  ("ο", "Ο"); ("π", "Π"); ("ρ", "Ρ"); ("ς", "Σ");
  ("σ", "Σ"); ("τ", "Τ"); ("υ", "Υ"); ("φ", "Φ");
  ("χ", "Χ"); ("ψ", "Ψ"); ("ω", "Ω"); ("ϊ", "Ϊ");
  ("ϋ", "Ϋ"); ("ό", "Ό"); ("ύ", "Ύ"); ("ώ", "Ώ");
  ("ϐ", "Β"); ("ϑ", "Θ"); ("ϕ", "Φ"); ("ϖ", "Π");
  ("ϗ", "Ϗ"); ("ϙ", "Ϙ"); ("ϛ", "Ϛ"); ("ϝ", "Ϝ");
  ("ϟ", "Ϟ"); ("ϡ", "Ϡ"); ("ϣ", "Ϣ"); ("ϥ", "Ϥ");
  ("ϧ", "Ϧ"); ("ϩ", "Ϩ"); ("ϫ", "Ϫ"); ("ϭ", "Ϭ");
  ("ϯ", "Ϯ"); ("ϰ", "Κ"); ("ϱ", "Ρ"); ("ϲ", "Ϲ");
  ("ϳ", "Ϳ"); ("ϵ", "Ε"); ("ϸ", "Ϸ"); ("ϻ", "Ϻ");
  ("а", "А"); ("б", "Б"); ("в", "В"); ("г", "Г");
  ("д", "Д"); ("е", "Е"); ("ж", "Ж"); ("з", "З");
  ("и", "И"); ("й", "Й"); ("к", "К"); ("л", "Л");
  ("м", "М"); ("н", "Н"); ("о", "О"); ("п", "П");
  ("р", "Р"); ("с", "С"); ("т", "Т"); ("у", "У");
  ("ф", "Ф"); ("х", "Х"); ("ц", "Ц"); ("ч", "Ч");
  ("ш", "Ш"); ("щ", "Щ"); ("ъ", "Ъ"); ("ы", "Ы");
  ("ь", "Ь"); ("э", "Э"); ("ю", "Ю"); ("я", "Я");
  ("ѐ", "Ѐ"); ("ё", "Ё"); ("ђ", "Ђ"); ("ѓ", "Ѓ");
  ("є", "Є"); ("ѕ", "Ѕ"); ("і", "І"); ("ї", "Ї");
  ("ј", "Ј"); ("љ", "Љ"); ("њ", "Њ"); ("ћ", "Ћ");
  ("ќ", "Ќ"); ("ѝ", "Ѝ"); ("ў", "Ў"); ("џ", "Џ");
  ("ѡ", "Ѡ"); ("ѣ", "Ѣ"); ("ѥ", "Ѥ"); ("ѧ", "Ѧ");
  ("ѩ", "Ѩ"); ("ѫ", "Ѫ"); ("ѭ", "Ѭ"); ("ѯ", "Ѯ");
  ("ѱ", "Ѱ"); ("ѳ", "Ѳ"); ("ѵ", "Ѵ"); ("ѷ", "Ѷ");
  ("ѹ", "Ѹ"); ("ѻ", "Ѻ"); ("ѽ", "Ѽ"); ("ѿ", "Ѿ");
  ("ҁ", "Ҁ"); ("ҋ", "Ҋ"); ("ҍ", "Ҍ"); ("ҏ", "Ҏ");
  ("ґ", "Ґ"); ("ғ", "Ғ"); ("ҕ", "Ҕ"); ("җ", "Җ");
  ("ҙ", "Ҙ"); ("қ", "Қ"); ("ҝ", "Ҝ"); ("ҟ", "Ҟ");
  ("ҡ", "Ҡ"); ("ң", "Ң"); ("ҥ", "Ҥ"); ("ҧ", "Ҧ");
  ("ҩ", "Ҩ"); ("ҫ", "Ҫ"); ("ҭ", "Ҭ"); ("ү", "Ү");
  ("ұ", "Ұ"); ("ҳ", "Ҳ"); ("ҵ", "Ҵ"); ("ҷ", "Ҷ");
  ("ҹ", "Ҹ"); ("һ", "Һ"); ("ҽ", "Ҽ"); ("ҿ", "Ҿ");
  ("ӂ", "Ӂ"); ("ӄ", "Ӄ"); ("ӆ", "Ӆ"); ("ӈ", "Ӈ");
  ("ӊ", "Ӊ"); ("ӌ", "Ӌ"); ("ӎ", "Ӎ"); ("ӏ", "Ӏ");
  ("ӑ", "Ӑ"); ("ӓ", "Ӓ"); ("ӕ", "Ӕ"); ("ӗ", "Ӗ");
  ("ә", "Ә"); ("ӛ", "Ӛ"); ("ӝ", "Ӝ"); ("ӟ", "Ӟ");
  ("ӡ", "Ӡ"); ("ӣ", "Ӣ"); ("ӥ", "Ӥ"); ("ӧ", "Ӧ");
  ("ө", "Ө"); ("ӫ", "Ӫ"); ("ӭ", "Ӭ"); ("ӯ", "Ӯ");
  ("ӱ", "Ӱ"); ("ӳ", "Ӳ"); ("ӵ", "Ӵ"); ("ӷ", "Ӷ");
  ("ӹ", "Ӹ"); ("ӻ", "Ӻ"); ("ӽ", "Ӽ"); ("ӿ", "Ӿ");
  ("ԁ", "Ԁ"); ("ԃ", "Ԃ"); ("ԅ", "Ԅ"); ("ԇ", "Ԇ");
  ("ԉ", "Ԉ"); ("ԋ", "Ԋ"); ("ԍ", "Ԍ"); ("ԏ", "Ԏ");
  ("ԑ", "Ԑ"); ("ԓ", "Ԓ"); ("ԕ", "Ԕ"); ("ԗ", "Ԗ");
  ("ԙ", "Ԙ"); ("ԛ", "Ԛ"); ("ԝ", "Ԝ"); ("ԟ", "Ԟ");
  ("ԡ", "Ԡ"); ("ԣ", "Ԣ"); ("ԥ", "Ԥ"); ("ԧ", "Ԧ");
  ("ԩ", "Ԩ"); ("ԫ", "Ԫ"); ("ԭ", "Ԭ"); ("ԯ", "Ԯ");
  ("ա", "Ա"); ("բ", "Բ"); ("գ", "Գ"); ("դ", "Դ");
  ("ե", "Ե"); ("զ", "Զ"); ("է", "Է"); ("ը", "Ը");
  ("թ", "Թ"); ("ժ", "Ժ"); ("ի", "Ի"); ("լ", "Լ");
  ("խ", "Խ"); ("ծ", "Ծ"); ("կ", "Կ"); ("հ", "Հ");
  ("ձ", "Ձ"); ("ղ", "Ղ"); ("ճ", "Ճ"); ("մ", "Մ");
  ("յ", "Յ"); ("ն", "Ն"); ("շ", "Շ"); ("ո", "Ո");
  ("չ", "Չ"); ("պ", "Պ"); ("ջ", "Ջ"); ("ռ", "Ռ");
  ("ս", "Ս"); ("վ", "Վ"); ("տ", "Տ"); ("ր", "Ր");
  ("ց", "Ց"); ("ւ", "Ւ"); ("փ", "Փ"); ("ք", "Ք");
  ("օ", "Օ"); ("ֆ", "Ֆ"); ("և", "ԵՒ"); ("ა", "Ა");
  ("ბ", "Ბ"); ("გ", "Გ"); ("დ", "Დ"); ("ე", "Ე");
  ("ვ", "Ვ"); ("ზ", "Ზ"); ("თ", "Თ"); ("ი", "Ი");
  ("კ", "Კ"); ("ლ", "Ლ"); ("მ", "Მ"); ("ნ", "Ნ");
  ("ო", "Ო"); ("პ", "Პ"); ("ჟ", "Ჟ"); ("რ", "Რ");
  ("ს", "Ს"); ("ტ", "Ტ"); ("უ", "Უ"); ("ფ", "Ფ");
  ("ქ", "Ქ"); ("ღ", "Ღ"); ("ყ", "Ყ"); ("შ", "Შ");
  ("ჩ", "Ჩ"); ("ც", "Ც"); ("ძ", "Ძ"); ("წ", "Წ");
  ("ჭ", "Ჭ"); ("ხ", "Ხ"); ("ჯ", "Ჯ"); ("ჰ", "Ჰ");
  ("ჱ", "Ჱ"); ("ჲ", "Ჲ"); ("ჳ", "Ჳ"); ("ჴ", "Ჴ");
  ("ჵ", "Ჵ"); ("ჶ", "Ჶ"); ("ჷ", "Ჷ"); ("ჸ", "Ჸ");
  ("ჹ", "Ჹ"); ("ჺ", "Ჺ"); ("ჽ", "Ჽ"); ("ჾ", "Ჾ");
  ("ჿ", "Ჿ"); ("ᏸ", "Ᏸ"); ("ᏹ", "Ᏹ"); ("ᏺ", "Ᏺ");
  ("ᏻ", "Ᏻ"); ("ᏼ", "Ᏼ"); ("ᏽ", "Ᏽ"); ("ᲀ", "В");
  ("ᲁ", "Д"); ("ᲂ", "О"); ("ᲃ", "С"); ("ᲄ", "Т");
  ("ᲅ", "Т"); ("ᲆ", "Ъ"); ("ᲇ", "Ѣ"); ("ᲈ", "Ꙋ");
  ("ᵹ", "Ᵹ"); ("ᵽ", "Ᵽ"); ("ᶎ", "Ᶎ"); ("ḁ", "Ḁ");
  ("ḃ", "Ḃ"); ("ḅ", "Ḅ"); ("ḇ", "Ḇ"); ("ḉ", "Ḉ");
  ("ḋ", "Ḋ"); ("ḍ", "Ḍ"); ("ḏ", "Ḏ"); ("ḑ", "Ḑ");
  ("ḓ", "Ḓ"); ("ḕ", "Ḕ"); ("ḗ", "Ḗ"); ("ḙ", "Ḙ");
  ("ḛ", "Ḛ"); ("ḝ", "Ḝ"); ("ḟ", "Ḟ"); ("ḡ", "Ḡ");
  ("ḣ", "Ḣ"); ("ḥ", "Ḥ"); ("ḧ", "Ḧ"); ("ḩ", "Ḩ");
  ("ḫ", "Ḫ"); ("ḭ", "Ḭ"); ("ḯ", "Ḯ"); ("ḱ", "Ḱ");
  ("ḳ", "Ḳ"); ("ḵ", "Ḵ"); ("ḷ", "Ḷ"); ("ḹ", "Ḹ");
  ("ḻ", "Ḻ"); ("ḽ", "Ḽ"); ("ḿ", "Ḿ"); ("ṁ", "Ṁ");
  ("ṃ", "Ṃ"); ("ṅ", "Ṅ"); ("ṇ", "Ṇ"); ("ṉ", "Ṉ");
  ("ṋ", "Ṋ"); ("ṍ", "Ṍ"); ("ṏ", "Ṏ"); ("ṑ", "Ṑ");
  ("ṓ", "Ṓ"); ("ṕ", "Ṕ"); ("ṗ", "Ṗ"); ("ṙ", "Ṙ");
  ("ṛ", "Ṛ"); ("ṝ", "Ṝ"); ("ṟ", "Ṟ"); ("ṡ", "Ṡ");
  ("ṣ", "Ṣ"); ("ṥ", "Ṥ"); ("ṧ", "Ṧ"); ("ṩ", "Ṩ");
  ("ṫ", "Ṫ"); ("ṭ", "Ṭ"); ("ṯ", "Ṯ"); ("ṱ", "Ṱ");
  ("ṳ", "Ṳ"); ("ṵ", "Ṵ"); ("ṷ", "Ṷ"); ("ṹ", "Ṹ");
  ("ṻ", "Ṻ"); ("ṽ", "Ṽ"); ("ṿ", "Ṿ"); ("ẁ", "Ẁ");
  ("ẃ", "Ẃ"); ("ẅ", "Ẅ"); ("ẇ", "Ẇ"); ("ẉ", "Ẉ");
  ("ẋ", "Ẋ"); ("ẍ", "Ẍ"); ("ẏ", "Ẏ"); ("ẑ", "Ẑ");
  ("ẓ", "Ẓ"); ("ẕ", "Ẕ"); ("ẖ", "H̱"); ("ẗ", "T̈");
  ("ẘ", "W̊"); ("ẙ", "Y̊"); ("ẚ", "Aʾ"); ("ẛ", "Ṡ");
  ("ạ", "Ạ"); ("ả", "Ả"); ("ấ", "Ấ"); ("ầ", "Ầ");
  ("ẩ", "Ẩ"); ("ẫ", "Ẫ"); ("ậ", "Ậ"); ("ắ", "Ắ");
  ("ằ", "Ằ"); ("ẳ", "Ẳ"); ("ẵ", "Ẵ"); ("ặ", "Ặ");
  ("ẹ", "Ẹ"); ("ẻ", "Ẻ"); ("ẽ", "Ẽ"); ("ế", "Ế");
  ("ề", "Ề"); ("ể", "Ể"); ("ễ", "Ễ"); ("ệ", "Ệ");
  ("ỉ", "Ỉ"); ("ị", "Ị"); ("ọ", "Ọ"); ("ỏ", "Ỏ");
  ("ố", "Ố"); ("ồ", "Ồ"); ("ổ", "Ổ"); ("ỗ", "Ỗ");
  ("ộ", "Ộ"); ("ớ", "Ớ"); ("ờ", "Ờ"); ("ở", "Ở");
  ("ỡ", "Ỡ"); ("ợ", "Ợ"); ("ụ", "Ụ"); ("ủ", "Ủ");
  ("ứ", "Ứ"); ("ừ", "Ừ"); ("ử", "Ử"); ("ữ", "Ữ");
  ("ự", "Ự"); ("ỳ", "Ỳ"); ("ỵ", "Ỵ"); ("ỷ", "Ỷ");
  ("ỹ", "Ỹ"); ("ỻ", "Ỻ"); ("ỽ", "Ỽ"); ("ỿ", "Ỿ");
  ("ἀ", "Ἀ"); ("ἁ", "Ἁ"); ("ἂ", "Ἂ"); ("ἃ", "Ἃ");
  ("ἄ", "Ἄ"); ("ἅ", "Ἅ"); ("ἆ", "Ἆ"); ("ἇ", "Ἇ");
  ("ἐ", "Ἐ"); ("ἑ", "Ἑ"); ("ἒ", "Ἒ"); ("ἓ", "Ἓ");
  ("ἔ", "Ἔ"); ("ἕ", "Ἕ"); ("ἠ", "Ἠ"); ("ἡ", "Ἡ");
  ("ἢ", "Ἢ"); ("ἣ", "Ἣ"); ("ἤ", "Ἤ"); ("ἥ", "Ἥ");
  ("ἦ", "Ἦ"); ("ἧ", "Ἧ"); ("ἰ", "Ἰ"); ("ἱ", "Ἱ");
  ("ἲ", "Ἲ"); ("ἳ", "Ἳ"); ("ἴ", "Ἴ"); ("ἵ", "Ἵ");
  ("ἶ", "Ἶ"); ("ἷ", "Ἷ"); ("ὀ", "Ὀ"); ("ὁ", "Ὁ");
  ("ὂ", "Ὂ"); ("ὃ", "Ὃ"); ("ὄ", "Ὄ"); ("ὅ", "Ὅ");
  ("ὐ", "Υ̓"); ("ὑ", "Ὑ"); ("ὒ", "Υ̓̀"); ("ὓ", "Ὓ");
  ("ὔ", "Υ̓́"); ("ὕ", "Ὕ"); ("ὖ", "Υ̓͂"); ("ὗ", "Ὗ");
  ("ὠ", "Ὠ"); ("ὡ", "Ὡ"); ("ὢ", "Ὢ"); ("ὣ", "Ὣ");
  ("ὤ", "Ὤ"); ("ὥ", "Ὥ"); ("ὦ", "Ὦ"); ("ὧ", "Ὧ");
  ("ὰ", "Ὰ"); ("ά", "Ά"); ("ὲ", "Ὲ"); ("έ", "Έ");
  ("ὴ", "Ὴ"); ("ή", "Ή"); ("ὶ", "Ὶ"); ("ί", "Ί");
  ("ὸ", "Ὸ"); ("ό", "Ό"); ("ὺ", "Ὺ"); ("ύ", "Ύ");
  ("ὼ", "Ὼ"); ("ώ", "Ώ"); ("ᾀ", "ἈΙ"); ("ᾁ", "ἉΙ");
  ("ᾂ", "ἊΙ"); ("ᾃ", "ἋΙ"); ("ᾄ", "ἌΙ"); ("ᾅ", "ἍΙ");
  ("ᾆ", "ἎΙ"); ("ᾇ", "ἏΙ"); ("ᾈ", "ἈΙ"); ("ᾉ", "ἉΙ");
  ("ᾊ", "ἊΙ"); ("ᾋ", "ἋΙ"); ("ᾌ", "ἌΙ"); ("ᾍ", "ἍΙ");
  ("ᾎ", "ἎΙ"); ("ᾏ", "ἏΙ"); ("ᾐ", "ἨΙ"); ("ᾑ", "ἩΙ");
  ("ᾒ", "ἪΙ"); ("ᾓ", "ἫΙ"); ("ᾔ", "ἬΙ"); ("ᾕ", "ἭΙ");
  ("ᾖ", "ἮΙ"); ("ᾗ", "ἯΙ"); ("ᾘ", "ἨΙ"); ("ᾙ", "ἩΙ");
  ("ᾚ", "ἪΙ"); ("ᾛ", "ἫΙ"); ("ᾜ", "ἬΙ"); ("ᾝ", "ἭΙ");
  ("ᾞ", "ἮΙ"); ("ᾟ", "ἯΙ"); ("ᾠ", "ὨΙ"); ("ᾡ", "ὩΙ");
  ("ᾢ", "ὪΙ"); ("ᾣ", "ὫΙ"); ("ᾤ", "ὬΙ"); ("ᾥ", "ὭΙ");
  ("ᾦ", "ὮΙ"); ("ᾧ", "ὯΙ"); ("ᾨ", "ὨΙ"); ("ᾩ", "ὩΙ");
  ("ᾪ", "ὪΙ"); ("ᾫ", "ὫΙ"); ("ᾬ", "ὬΙ"); ("ᾭ", "ὭΙ");
  ("ᾮ", "ὮΙ"); ("ᾯ", "ὯΙ"); ("ᾰ", "Ᾰ"); ("ᾱ", "Ᾱ");
  ("ᾲ", "ᾺΙ"); ("ᾳ", "ΑΙ"); ("ᾴ", "ΆΙ"); ("ᾶ", "Α͂");
  ("ᾷ", "Α͂Ι"); ("ᾼ", "ΑΙ"); ("ι", "Ι"); ("ῂ", "ῊΙ");
  ("ῃ", "ΗΙ"); ("ῄ", "ΉΙ"); ("ῆ", "Η͂"); ("ῇ", "Η͂Ι");
  ("ῌ", "ΗΙ"); ("ῐ", "Ῐ"); ("ῑ", "Ῑ"); ("ῒ", "Ϊ̀");
  ("ΐ", "Ϊ́"); ("ῖ", "Ι͂"); ("ῗ", "Ϊ͂"); ("ῠ", "Ῠ");
  ("ῡ", "Ῡ"); ("ῢ", "Ϋ̀"); ("ΰ", "Ϋ́"); ("ῤ", "Ρ̓");
  ("ῥ", "Ῥ"); ("ῦ", "Υ͂"); ("ῧ", "Ϋ͂"); ("ῲ", "ῺΙ");
  ("ῳ", "ΩΙ"); ("ῴ", "ΏΙ"); ("ῶ", "Ω͂"); ("ῷ", "Ω͂Ι");
  ("ῼ", "ΩΙ"); ("ⅎ", "Ⅎ"); ("ⅰ", "Ⅰ"); ("ⅱ", "Ⅱ");
  ("ⅲ", "Ⅲ"); ("ⅳ", "Ⅳ"); ("ⅴ", "Ⅴ"); ("ⅵ", "Ⅵ");
  ("ⅶ", "Ⅶ"); ("ⅷ", "Ⅷ"); ("ⅸ", "Ⅸ"); ("ⅹ", "Ⅹ");
  ("ⅺ", "Ⅺ"); ("ⅻ", "Ⅻ"); ("ⅼ", "Ⅼ"); ("ⅽ", "Ⅽ");
  ("ⅾ", "Ⅾ"); ("ⅿ", "Ⅿ"); ("ↄ", "Ↄ"); ("ⓐ", "Ⓐ");
  ("ⓑ", "Ⓑ"); ("ⓒ", "Ⓒ"); ("ⓓ", "Ⓓ"); ("ⓔ", "Ⓔ");
  ("ⓕ", "Ⓕ"); ("ⓖ", "Ⓖ"); ("ⓗ", "Ⓗ"); ("ⓘ", "Ⓘ");
  ("ⓙ", "Ⓙ"); ("ⓚ", "Ⓚ"); ("ⓛ", "Ⓛ"); ("ⓜ", "Ⓜ");
  ("ⓝ", "Ⓝ"); ("ⓞ", "Ⓞ"); ("ⓟ", "Ⓟ"); ("ⓠ", "Ⓠ");
  ("ⓡ", "Ⓡ"); ("ⓢ", "Ⓢ"); ("ⓣ", "Ⓣ"); ("ⓤ", "Ⓤ");
  ("ⓥ", "Ⓥ"); ("ⓦ", "Ⓦ"); ("ⓧ", "Ⓧ"); ("ⓨ", "Ⓨ");
  ("ⓩ", "Ⓩ"); ("ⰰ", "Ⰰ"); ("ⰱ", "Ⰱ"); ("ⰲ", "Ⰲ");
  ("ⰳ", "Ⰳ"); ("ⰴ", "Ⰴ"); ("ⰵ", "Ⰵ"); ("ⰶ", "Ⰶ");
  ("ⰷ", "Ⰷ"); ("ⰸ", "Ⰸ"); ("ⰹ", "Ⰹ"); ("ⰺ", "Ⰺ");
  ("ⰻ", "Ⰻ"); ("ⰼ", "Ⰼ"); ("ⰽ", "Ⰽ"); ("ⰾ", "Ⰾ");
  ("ⰿ", "Ⰿ"); ("ⱀ", "Ⱀ"); ("ⱁ", "Ⱁ"); ("ⱂ", "Ⱂ");
  ("ⱃ", "Ⱃ"); ("ⱄ", "Ⱄ"); ("ⱅ", "Ⱅ"); ("ⱆ", "Ⱆ");
  ("ⱇ", "Ⱇ"); ("ⱈ", "Ⱈ"); ("ⱉ", "Ⱉ"); ("ⱊ", "Ⱊ");
  ("ⱋ", "Ⱋ"); ("ⱌ", "Ⱌ"); ("ⱍ", "Ⱍ"); ("ⱎ", "Ⱎ");
  ("ⱏ", "Ⱏ"); ("ⱐ", "Ⱐ"); ("ⱑ", "Ⱑ"); ("ⱒ", "Ⱒ");
  ("ⱓ", "Ⱓ"); ("ⱔ", "Ⱔ"); ("ⱕ", "Ⱕ"); ("ⱖ", "Ⱖ");
  ("ⱗ", "Ⱗ"); ("ⱘ", "Ⱘ"); ("ⱙ", "Ⱙ"); ("ⱚ", "Ⱚ");
  ("ⱛ", "Ⱛ"); ("ⱜ", "Ⱜ"); ("ⱝ", "Ⱝ"); ("ⱞ", "Ⱞ");
  ("ⱟ", "Ⱟ"); ("ⱡ", "Ⱡ"); ("ⱥ", "Ⱥ"); ("ⱦ", "Ⱦ");
  ("ⱨ", "Ⱨ"); ("ⱪ", "Ⱪ"); ("ⱬ", "Ⱬ"); ("ⱳ", "Ⱳ");
  ("ⱶ", "Ⱶ"); ("ⲁ", "Ⲁ"); ("ⲃ", "Ⲃ"); ("ⲅ", "Ⲅ");
  ("ⲇ", "Ⲇ"); ("ⲉ", "Ⲉ"); ("ⲋ", "Ⲋ"); ("ⲍ", "Ⲍ");
  ("ⲏ", "Ⲏ"); ("ⲑ", "Ⲑ"); ("ⲓ", "Ⲓ"); ("ⲕ", "Ⲕ");
  ("ⲗ", "Ⲗ"); ("ⲙ", "Ⲙ"); ("ⲛ", "Ⲛ"); ("ⲝ", "Ⲝ");
  ("ⲟ", "Ⲟ"); ("ⲡ", "Ⲡ"); ("ⲣ", "Ⲣ"); ("ⲥ", "Ⲥ");
  ("ⲧ", "Ⲧ"); ("ⲩ", "Ⲩ"); ("ⲫ", "Ⲫ"); ("ⲭ", "Ⲭ");
  ("ⲯ", "Ⲯ"); ("ⲱ", "Ⲱ"); ("ⲳ", "Ⲳ"); ("ⲵ", "Ⲵ");
  ("ⲷ", "Ⲷ"); ("ⲹ", "Ⲹ"); ("ⲻ", "Ⲻ"); ("ⲽ", "Ⲽ");
  ("ⲿ", "Ⲿ"); ("ⳁ", "Ⳁ"); ("ⳃ", "Ⳃ"); ("ⳅ", "Ⳅ");
  ("ⳇ", "Ⳇ"); ("ⳉ", "Ⳉ"); ("ⳋ", "Ⳋ"); ("ⳍ", "Ⳍ");
  ("ⳏ", "Ⳏ"); ("ⳑ", "Ⳑ"); ("ⳓ", "Ⳓ"); ("ⳕ", "Ⳕ");
  ("ⳗ", "Ⳗ"); ("ⳙ", "Ⳙ"); ("ⳛ", "Ⳛ"); ("ⳝ", "Ⳝ");
  ("ⳟ", "Ⳟ"); ("ⳡ", "Ⳡ"); ("ⳣ", "Ⳣ"); ("ⳬ", "Ⳬ");
  ("ⳮ", "Ⳮ"); ("ⳳ", "Ⳳ"); ("ⴀ", "Ⴀ"); ("ⴁ", "Ⴁ");
  ("ⴂ", "Ⴂ"); ("ⴃ", "Ⴃ"); ("ⴄ", "Ⴄ"); ("ⴅ", "Ⴅ");
  ("ⴆ", "Ⴆ"); ("ⴇ", "Ⴇ"); ("ⴈ", "Ⴈ"); ("ⴉ", "Ⴉ");
  ("ⴊ", "Ⴊ"); ("ⴋ", "Ⴋ"); ("ⴌ", "Ⴌ"); ("ⴍ", "Ⴍ");
  ("ⴎ", "Ⴎ"); ("ⴏ", "Ⴏ"); ("ⴐ", "Ⴐ"); ("ⴑ", "Ⴑ");
  ("ⴒ", "Ⴒ"); ("ⴓ", "Ⴓ"); ("ⴔ", "Ⴔ"); ("ⴕ", "Ⴕ");
  ("ⴖ", "Ⴖ"); ("ⴗ", "Ⴗ"); ("ⴘ", "Ⴘ"); ("ⴙ", "Ⴙ");
  ("ⴚ", "Ⴚ"); ("ⴛ", "Ⴛ"); ("ⴜ", "Ⴜ"); ("ⴝ", "Ⴝ");
  ("ⴞ", "Ⴞ"); ("ⴟ", "Ⴟ"); ("ⴠ", "Ⴠ"); ("ⴡ", "Ⴡ");
  ("ⴢ", "Ⴢ"); ("ⴣ", "Ⴣ"); ("ⴤ", "Ⴤ"); ("ⴥ", "Ⴥ");
  ("ⴧ", "Ⴧ"); ("ⴭ", "Ⴭ"); ("ꙁ", "Ꙁ"); ("ꙃ", "Ꙃ");
  ("ꙅ", "Ꙅ"); ("ꙇ", "Ꙇ"); ("ꙉ", "Ꙉ"); ("ꙋ", "Ꙋ");
  ("ꙍ", "Ꙍ"); ("ꙏ", "Ꙏ"); ("ꙑ", "Ꙑ"); ("ꙓ", "Ꙓ");
  ("ꙕ", "Ꙕ"); ("ꙗ", "Ꙗ"); ("ꙙ", "Ꙙ"); ("ꙛ", "Ꙛ");
  ("ꙝ", "Ꙝ"); ("ꙟ", "Ꙟ"); ("ꙡ", "Ꙡ"); ("ꙣ", "Ꙣ");
  ("ꙥ", "Ꙥ"); ("ꙧ", "Ꙧ"); ("ꙩ", "Ꙩ"); ("ꙫ", "Ꙫ");
  ("ꙭ", "Ꙭ"); ("ꚁ", "Ꚁ"); ("ꚃ", "Ꚃ"); ("ꚅ", "Ꚅ");
  ("ꚇ", "Ꚇ"); ("ꚉ", "Ꚉ"); ("ꚋ", "Ꚋ"); ("ꚍ", "Ꚍ");
  ("ꚏ", "Ꚏ"); ("ꚑ", "Ꚑ"); ("ꚓ", "Ꚓ"); ("ꚕ", "Ꚕ");
  ("ꚗ", "Ꚗ"); ("ꚙ", "Ꚙ"); ("ꚛ", "Ꚛ"); ("ꜣ", "Ꜣ");
  ("ꜥ", "Ꜥ"); ("ꜧ", "Ꜧ"); ("ꜩ", "Ꜩ"); ("ꜫ", "Ꜫ");
  ("ꜭ", "Ꜭ"); ("ꜯ", "Ꜯ"); ("ꜳ", "Ꜳ"); ("ꜵ", "Ꜵ");
  ("ꜷ", "Ꜷ"); ("ꜹ", "Ꜹ"); ("ꜻ", "Ꜻ"); ("ꜽ", "Ꜽ");
  ("ꜿ", "Ꜿ"); ("ꝁ", "Ꝁ"); ("ꝃ", "Ꝃ"); ("ꝅ", "Ꝅ");
  ("ꝇ", "Ꝇ"); ("ꝉ", "Ꝉ"); ("ꝋ", "Ꝋ"); ("ꝍ", "Ꝍ");
  ("ꝏ", "Ꝏ"); ("ꝑ", "Ꝑ"); ("ꝓ", "Ꝓ"); ("ꝕ", "Ꝕ");
  ("ꝗ", "Ꝗ"); ("ꝙ", "Ꝙ"); ("ꝛ", "Ꝛ"); ("ꝝ", "Ꝝ");
  ("ꝟ", "Ꝟ"); ("ꝡ", "Ꝡ"); ("ꝣ", "Ꝣ"); ("ꝥ", "Ꝥ");
  ("ꝧ", "Ꝧ"); ("ꝩ", "Ꝩ"); ("ꝫ", "Ꝫ"); ("ꝭ", "Ꝭ");
  ("ꝯ", "Ꝯ"); ("ꝺ", "Ꝺ"); ("ꝼ", "Ꝼ"); ("ꝿ", "Ꝿ");
  ("ꞁ", "Ꞁ"); ("ꞃ", "Ꞃ"); ("ꞅ", "Ꞅ"); ("ꞇ", "Ꞇ");
  ("ꞌ", "Ꞌ"); ("ꞑ", "Ꞑ"); ("ꞓ", "Ꞓ"); ("ꞔ", "Ꞔ");
  ("ꞗ", "Ꞗ"); ("ꞙ", "Ꞙ"); ("ꞛ", "Ꞛ"); ("ꞝ", "Ꞝ");
  ("ꞟ", "Ꞟ"); ("ꞡ", "Ꞡ"); ("ꞣ", "Ꞣ"); ("ꞥ", "Ꞥ");
  ("ꞧ", "Ꞧ"); ("ꞩ", "Ꞩ"); ("ꞵ", "Ꞵ"); ("ꞷ", "Ꞷ");
  ("ꞹ", "Ꞹ"); ("ꞻ", "Ꞻ"); ("ꞽ", "Ꞽ"); ("ꞿ", "Ꞿ");
  ("ꟁ", "Ꟁ"); ("ꟃ", "Ꟃ"); ("ꟈ", "Ꟈ"); ("ꟊ", "Ꟊ");
  ("ꟑ", "Ꟑ"); ("ꟗ", "Ꟗ"); ("ꟙ", "Ꟙ"); ("ꟶ", "Ꟶ");
  ("ꭓ", "Ꭓ"); ("ꭰ", "Ꭰ"); ("ꭱ", "Ꭱ"); ("ꭲ", "Ꭲ");
  ("ꭳ", "Ꭳ"); ("ꭴ", "Ꭴ"); ("ꭵ", "Ꭵ"); ("ꭶ", "Ꭶ");
  ("ꭷ", "Ꭷ"); ("ꭸ", "Ꭸ"); ("ꭹ", "Ꭹ"); ("ꭺ", "Ꭺ");
  ("ꭻ", "Ꭻ"); ("ꭼ", "Ꭼ"); ("ꭽ", "Ꭽ"); ("ꭾ", "Ꭾ");
  ("ꭿ", "Ꭿ"); ("ꮀ", "Ꮀ"); ("ꮁ", "Ꮁ"); ("ꮂ", "Ꮂ");
  ("ꮃ", "Ꮃ"); ("ꮄ", "Ꮄ"); ("ꮅ", "Ꮅ"); ("ꮆ", "Ꮆ");
  ("ꮇ", "Ꮇ"); ("ꮈ", "Ꮈ"); ("ꮉ", "Ꮉ"); ("ꮊ", "Ꮊ");
  ("ꮋ", "Ꮋ"); ("ꮌ", "Ꮌ"); ("ꮍ", "Ꮍ"); ("ꮎ", "Ꮎ");
  ("ꮏ", "Ꮏ"); ("ꮐ", "Ꮐ"); ("ꮑ", "Ꮑ"); ("ꮒ", "Ꮒ");
  ("ꮓ", "Ꮓ"); ("ꮔ", "Ꮔ"); ("ꮕ", "Ꮕ"); ("ꮖ", "Ꮖ");
  ("ꮗ", "Ꮗ"); ("ꮘ", "Ꮘ"); ("ꮙ", "Ꮙ"); ("ꮚ", "Ꮚ");
  ("ꮛ", "Ꮛ"); ("ꮜ", "Ꮜ"); ("ꮝ", "Ꮝ"); ("ꮞ", "Ꮞ");
  ("ꮟ", "Ꮟ"); ("ꮠ", "Ꮠ"); ("ꮡ", "Ꮡ"); ("ꮢ", "Ꮢ");
  ("ꮣ", "Ꮣ"); ("ꮤ", "Ꮤ"); ("ꮥ", "Ꮥ"); ("ꮦ", "Ꮦ");
  ("ꮧ", "Ꮧ"); ("ꮨ", "Ꮨ"); ("ꮩ", "Ꮩ"); ("ꮪ", "Ꮪ");
  ("ꮫ", "Ꮫ"); ("ꮬ", "Ꮬ"); ("ꮭ", "Ꮭ"); ("ꮮ", "Ꮮ");
  ("ꮯ", "Ꮯ"); ("ꮰ", "Ꮰ"); ("ꮱ", "Ꮱ"); ("ꮲ", "Ꮲ");
  ("ꮳ", "Ꮳ"); ("ꮴ", "Ꮴ"); ("ꮵ", "Ꮵ"); ("ꮶ", "Ꮶ");
  ("ꮷ", "Ꮷ"); ("ꮸ", "Ꮸ"); ("ꮹ", "Ꮹ"); ("ꮺ", "Ꮺ");
  ("ꮻ", "Ꮻ"); ("ꮼ", "Ꮼ"); ("ꮽ", "Ꮽ"); ("ꮾ", "Ꮾ");
  ("ꮿ", "Ꮿ"); ("ﬀ", "FF"); ("ﬁ", "FI"); ("ﬂ", "FL");
  ("ﬃ", "FFI"); ("ﬄ", "FFL"); ("ﬅ", "ST"); ("ﬆ", "ST");
  ("ﬓ", "ՄՆ"); ("ﬔ", "ՄԵ"); ("ﬕ", "ՄԻ"); ("ﬖ", "ՎՆ");
  ("ﬗ", "ՄԽ"); ("ａ", "Ａ"); ("ｂ", "Ｂ"); ("ｃ", "Ｃ");
  ("ｄ", "Ｄ"); ("ｅ", "Ｅ"); ("ｆ", "Ｆ"); ("ｇ", "Ｇ");
  ("ｈ", "Ｈ"); ("ｉ", "Ｉ"); ("ｊ", "Ｊ"); ("ｋ", "Ｋ");
  ("ｌ", "Ｌ"); ("ｍ", "Ｍ"); ("ｎ", "Ｎ"); ("ｏ", "Ｏ");
  ("ｐ", "Ｐ"); ("ｑ", "Ｑ"); ("ｒ", "Ｒ"); ("ｓ", "Ｓ");
  ("ｔ", "Ｔ"); ("ｕ", "Ｕ"); ("ｖ", "Ｖ"); ("ｗ", "Ｗ");
  ("ｘ", "Ｘ"); ("ｙ", "Ｙ"); ("ｚ", "Ｚ"); ("𐐨", "𐐀");
  ("𐐩", "𐐁"); ("𐐪", "𐐂"); ("𐐫", "𐐃"); ("𐐬", "𐐄");
  ("𐐭", "𐐅"); ("𐐮", "𐐆"); ("𐐯", "𐐇"); ("𐐰", "𐐈");
  ("𐐱", "𐐉"); ("𐐲", "𐐊"); ("𐐳", "𐐋"); ("𐐴", "𐐌");
  ("𐐵", "𐐍"); ("𐐶", "𐐎"); ("𐐷", "𐐏"); ("𐐸", "𐐐");
  ("𐐹", "𐐑"); ("𐐺", "𐐒"); ("𐐻", "𐐓"); ("𐐼", "𐐔");
  ("𐐽", "𐐕"); ("𐐾", "𐐖"); ("𐐿", "𐐗"); ("𐑀", "𐐘");
  ("𐑁", "𐐙"); ("𐑂", "𐐚"); ("𐑃", "𐐛"); ("𐑄", "𐐜");
  ("𐑅", "𐐝"); ("𐑆", "𐐞"); ("𐑇", "𐐟"); ("𐑈", "𐐠");
  ("𐑉", "𐐡"); ("𐑊", "𐐢"); ("𐑋", "𐐣"); ("𐑌", "𐐤");
  ("𐑍", "𐐥"); ("𐑎", "𐐦"); ("𐑏", "𐐧"); ("𐓘", "𐒰");
  ("𐓙", "𐒱"); ("𐓚", "𐒲"); ("𐓛", "𐒳"); ("𐓜", "𐒴");
  ("𐓝", "𐒵"); ("𐓞", "𐒶"); ("𐓟", "𐒷"); ("𐓠", "𐒸");
  ("𐓡", "𐒹"); ("𐓢", "𐒺"); ("𐓣", "𐒻"); ("𐓤", "𐒼");
  ("𐓥", "𐒽"); ("𐓦", "𐒾"); ("𐓧", "𐒿"); ("𐓨", "𐓀");
  ("𐓩", "𐓁"); ("𐓪", "𐓂"); ("𐓫", "𐓃"); ("𐓬", "𐓄");
  ("𐓭", "𐓅"); ("𐓮", "𐓆"); ("𐓯", "𐓇"); ("𐓰", "𐓈");
  ("𐓱", "𐓉"); ("𐓲", "𐓊"); ("𐓳", "𐓋"); ("𐓴", "𐓌");
  ("𐓵", "𐓍"); ("𐓶", "𐓎"); ("𐓷", "𐓏"); ("𐓸", "𐓐");
  ("𐓹", "𐓑"); ("𐓺", "𐓒"); ("𐓻", "𐓓"); ("𐖗", "𐕰");
  ("𐖘", "𐕱"); ("𐖙", "𐕲"); ("𐖚", "𐕳"); ("𐖛", "𐕴");
  ("𐖜", "𐕵"); ("𐖝", "𐕶"); ("𐖞", "𐕷"); ("𐖟", "𐕸");
  ("𐖠", "𐕹"); ("𐖡", "𐕺"); ("𐖣", "𐕼"); ("𐖤", "𐕽");
  ("𐖥", "𐕾"); ("𐖦", "𐕿"); ("𐖧", "𐖀"); ("𐖨", "𐖁");
  ("𐖩", "𐖂"); ("𐖪", "𐖃"); ("𐖫", "𐖄"); ("𐖬", "𐖅");
  ("𐖭", "𐖆"); ("𐖮", "𐖇"); ("𐖯", "𐖈"); ("𐖰", "𐖉");
  ("𐖱", "𐖊"); ("𐖳", "𐖌"); ("𐖴", "𐖍"); ("𐖵", "𐖎");
  ("𐖶", "𐖏"); ("𐖷", "𐖐"); ("𐖸", "𐖑"); ("𐖹", "𐖒");
  ("𐖻", "𐖔"); ("𐖼", "𐖕"); ("𐳀", "𐲀"); ("𐳁", "𐲁");
  ("𐳂", "𐲂"); ("𐳃", "𐲃"); ("𐳄", "𐲄"); ("𐳅", "𐲅");
  ("𐳆", "𐲆"); ("𐳇", "𐲇"); ("𐳈", "𐲈"); ("𐳉", "𐲉");
  ("𐳊", "𐲊"); ("𐳋", "𐲋"); ("𐳌", "𐲌"); ("𐳍", "𐲍");
  ("𐳎", "𐲎"); ("𐳏", "𐲏"); ("𐳐", "𐲐"); ("𐳑", "𐲑");
  ("𐳒", "𐲒"); ("𐳓", "𐲓"); ("𐳔", "𐲔"); ("𐳕", "𐲕");
  ("𐳖", "𐲖"); ("𐳗", "𐲗"); ("𐳘", "𐲘"); ("𐳙", "𐲙");
  ("𐳚", "𐲚"); ("𐳛", "𐲛"); ("𐳜", "𐲜"); ("𐳝", "𐲝");
  ("𐳞", "𐲞"); ("𐳟", "𐲟"); ("𐳠", "𐲠"); ("𐳡", "𐲡");
  ("𐳢", "𐲢"); ("𐳣", "𐲣"); ("𐳤", "𐲤"); ("𐳥", "𐲥");
  ("𐳦", "𐲦"); ("𐳧", "𐲧"); ("𐳨", "𐲨"); ("𐳩", "𐲩");
  ("𐳪", "𐲪"); ("𐳫", "𐲫"); ("𐳬", "𐲬"); ("𐳭", "𐲭");
  ("𐳮", "𐲮"); ("𐳯", "𐲯"); ("𐳰", "𐲰"); ("𐳱", "𐲱");
  ("𐳲", "𐲲"); ("𑣀", "𑢠"); ("𑣁", "𑢡"); ("𑣂", "𑢢");
  ("𑣃", "𑢣"); ("𑣄", "𑢤"); ("𑣅", "𑢥"); ("𑣆", "𑢦");
  ("𑣇", "𑢧"); ("𑣈", "𑢨"); ("𑣉", "𑢩"); ("𑣊", "𑢪");
  ("𑣋", "𑢫"); ("𑣌", "𑢬"); ("𑣍", "𑢭"); ("𑣎", "𑢮");
  ("𑣏", "𑢯"); ("𑣐", "𑢰"); ("𑣑", "𑢱"); ("𑣒", "𑢲");
  ("𑣓", "𑢳"); ("𑣔", "𑢴"); ("𑣕", "𑢵"); ("𑣖", "𑢶");
  ("𑣗", "𑢷"); ("𑣘", "𑢸"); ("𑣙", "𑢹"); ("𑣚", "𑢺");
  ("𑣛", "𑢻"); ("𑣜", "𑢼"); ("𑣝", "𑢽"); ("𑣞", "𑢾");
  ("𑣟", "𑢿"); ("𖹠", "𖹀"); ("𖹡", "𖹁"); ("𖹢", "𖹂");
  ("𖹣", "𖹃"); ("𖹤", "𖹄"); ("𖹥", "𖹅"); ("𖹦", "𖹆");
  ("𖹧", "𖹇"); ("𖹨", "𖹈"); ("𖹩", "𖹉"); ("𖹪", "𖹊");
  ("𖹫", "𖹋"); ("𖹬", "𖹌"); ("𖹭", "𖹍"); ("𖹮", "𖹎");
  ("𖹯", "𖹏"); ("𖹰", "𖹐"); ("𖹱", "𖹑"); ("𖹲", "𖹒");
  ("𖹳", "𖹓"); ("𖹴", "𖹔"); ("𖹵", "𖹕"); ("𖹶", "𖹖");
  ("𖹷", "𖹗"); ("𖹸", "𖹘"); ("𖹹", "𖹙"); ("𖹺", "𖹚");
  ("𖹻", "𖹛"); ("𖹼", "𖹜"); ("𖹽", "𖹝"); ("𖹾", "𖹞");
  ("𖹿", "𖹟"); ("𞤢", "𞤀"); ("𞤣", "𞤁"); ("𞤤", "𞤂");
  ("𞤥", "𞤃"); ("𞤦", "𞤄"); ("𞤧", "𞤅"); ("𞤨", "𞤆");
  ("𞤩", "𞤇"); ("𞤪", "𞤈"); ("𞤫", "𞤉"); ("𞤬", "𞤊");
  ("𞤭", "𞤋"); ("𞤮", "𞤌"); ("𞤯", "𞤍"); ("𞤰", "𞤎");
  ("𞤱", "𞤏"); ("𞤲", "𞤐"); ("𞤳", "𞤑"); ("𞤴", "𞤒");
  ("𞤵", "𞤓"); ("𞤶", "𞤔"); ("𞤷", "𞤕"); ("𞤸", "𞤖");
  ("𞤹", "𞤗"); ("𞤺", "𞤘"); ("𞤻", "𞤙"); ("𞤼", "𞤚");
  ("𞤽", "𞤛"); ("𞤾", "𞤜"); ("𞤿", "𞤝"); ("𞥀", "𞤞");
  ("𞥁", "𞤟"); ("𞥂", "𞤠"); ("𞥃", "𞤡")
].

(** The entry of [case_table] for the character a text starts with. *)
Definition upper_of (s : string) : option (string * string) :=
  List.find (fun kv => String.prefix (fst kv) s) case_table.

(** [String.prototype.toUpperCase]: character by character; [skip] counts
    the bytes that remain of a character already mapped. *)
Fixpoint toUpperCase_from (skip : nat) (s : string) : string :=
  match s with
  | EmptyString => EmptyString
  | String c s' =>
      match skip with
      | S k => toUpperCase_from k s'
      | O =>
          if (nat_of_ascii c <? 128)%nat
          then String (upper c) (toUpperCase_from 0 s')
          else
            match upper_of s with
            | Some (lower, mapped) =>
                mapped +:+ toUpperCase_from (String.length lower - 1) s'
            | None => String c (toUpperCase_from 0 s')
            end
      end
  end.

Definition toUpperCase (s : string) : string := toUpperCase_from 0 s.

(** [s.replace(/\n/g, '<br>')]: every line feed becomes the markup. *)
Fixpoint replace_newlines (s : string) : string :=
  match s with
  | EmptyString => EmptyString
  | String c s' =>
      if Ascii.eqb c "010" then "<br>" +:+ replace_newlines s'
      else String c (replace_newlines s')
  end.

(** ** JavaScript values

    What [JSON.parse] returns: any JSON value.  An object lists its own
    properties, each key once.  [undefined] is no JSON value: a property
    read gives an [option json], [None] when the property is absent. *)
#[warnings="-register-all"]
Inductive json :=
| JNull
| JBool (b : bool)
| JNum (x : float)
| JStr (s : string)
| JArr (items : list json)
| JObj (fields : list (string * json)).

(** A computation returns a value or throws.  A thrown value is
    represented by its [message], the only property the handlers read. *)
Inductive Outcome (A : Type) :=
| Return (a : A)
| Throw (msg : string).
Arguments Return {A} a.
Arguments Throw {A} msg.

#[global] Instance Outcome_bind : MBind Outcome :=
  fun A B k o =>
    match o with
    | Return a => k a
    | Throw msg => Throw msg
    end.

#[global] Instance Outcome_fmap : FMap Outcome :=
  fun A B f o =>
    match o with
    | Return a => Return (f a)
    | Throw msg => Throw msg
    end.

(** The own property [key] of a value; only objects have any.  None of
    the keys the program reads is defined by a prototype, so this is the
    property read [v.key] on every value but [null]. *)
Definition own (v : json) (key : string) : option json :=
  match v with
  | JObj fields =>
      snd <$> List.find (fun kv => String.eqb (fst kv) key) fields
  | _ => None
  end.

(** The property read [v.key]; reading from [null] throws. *)
Definition read (v : json) (key : string) : Outcome (option json) :=
  match v with
  | JNull =>
      Throw ("Cannot read properties of null (reading '" +:+ key +:+ "')")
  | _ => Return (own v key)
  end.

(** The object [x] of a property read [x.key], where [x] may be
    [undefined] or [null]: the read throws for both. *)
Definition target (x : option json) (key : string) : Outcome json :=
  match x with
  | None =>
      Throw ("Cannot read properties of undefined (reading '" +:+ key +:+ "')")
  | Some JNull =>
      Throw ("Cannot read properties of null (reading '" +:+ key +:+ "')")
  | Some v => Return v
  end.

(** [x?.key] *)
Definition optional (x : option json) (key : string) : option json :=
  match x with
  | None | Some JNull => None
  | Some v => own v key
  end.

Module Value.

(** [ToBoolean]: the values [||] replaces are [undefined], [null],
    [false], [0], NaN and the empty string. *)
Definition ToBoolean (x : option json) : bool :=
  match x with
  | None | Some JNull => false
  | Some (JBool b) => b
  | Some (JNum n) => negb (PrimFloat.eqb n 0 || PrimFloat.is_nan n)
  | Some (JStr s) => negb (String.eqb s "")
  | Some (JArr _) | Some (JObj _) => true
  end.

(** [ToString] of a JSON value.  An array joins the texts of its
    elements with commas, [null] elements giving the empty text.  An
    object is converted by [Object.prototype.toString], unless it has an
    own property [toString]: no JSON value can be called, so no method is
    left and the conversion throws a TypeError. *)
Fixpoint to_string (v : json) : Outcome string :=
  match v with
  | JNull => Return "null"
  | JBool b => Return (if b then "true" else "false")
  | JNum n => Return (Number.toString n)
  | JStr s => Return s
  | JArr items =>
      (fix join (l : list json) : Outcome string :=
         match l with
         | [] => Return ""
         | x :: l' =>
             first ← match x with JNull => Return "" | _ => to_string x end;
             match l' with
             | [] => Return first
             | _ => rest ← join l'; Return (first +:+ "," +:+ rest)
             end
         end) items
  | JObj fields =>
      match own (JObj fields) "toString" with
      | Some _ => Throw "Cannot convert object to primitive value"
      | None => Return "[object Object]"
      end
  end.

(** [ToString], as a template literal applies it. *)
Definition ToString (x : option json) : Outcome string :=
  match x with
  | None => Return "undefined"
  | Some v => to_string v
  end.

(** [ToNumber], as the division applies it: an array or an object is
    first converted to a text. *)
Definition ToNumber (x : option json) : Outcome float :=
  match x with
  | None => Return nan
  | Some JNull => Return 0%float
  | Some (JBool b) => Return (if b then 1%float else 0%float)
  | Some (JNum n) => Return n
  | Some (JStr s) => Return (Number.StringToNumber s)
  | Some v => s ← to_string v; Return (Number.StringToNumber s)
  end.

End Value.

(** ** Data model *)

(** The payment object of a failure event, with the shape the
    specification gives it: [amount] a number, the other leaves strings.
    [None] is a property that is absent. *)
Record Customer := {
  name : option string;
  email : option string
}.

Record PaymentMethodDetails := {
  type : option string
}.

Record FailedPayment := {
  amount : option float;
  currency : option string;
  failure_code : option string;
  failure_message : option string;
  customer : option Customer;
  payment_method_details : option PaymentMethodDetails
}.

(** The object a [FailedPayment] stands for: it has the properties that
    are there.  Where a value is expected, a [FailedPayment] is read as
    this object. *)
Definition property (key : string) (x : option json) : list (string * json) :=
  match x with
  | Some v => [(key, v)]
  | None => []
  end.

Definition encode_customer (c : Customer) : json :=
  JObj (property "name" (JStr <$> name c)
        ++ property "email" (JStr <$> email c)).

Definition encode_details (d : PaymentMethodDetails) : json :=
  JObj (property "type" (JStr <$> type d)).

Definition encode (p : FailedPayment) : json :=
  JObj (property "amount" (JNum <$> amount p)
        ++ property "currency" (JStr <$> currency p)
        ++ property "failure_code" (JStr <$> failure_code p)
        ++ property "failure_message" (JStr <$> failure_message p)
        ++ property "customer" (encode_customer <$> customer p)
        ++ property "payment_method_details"
             (encode_details <$> payment_method_details p)).

Coercion encode : FailedPayment >-> json.

Record AlertContent := {
  subject : string;
  body : string
}.

Definition content_value (c : AlertContent) : json :=
  JObj [("subject", JStr (subject c)); ("body", JStr (body c))].

Inductive Level := info | warning | error.

(** The [data] argument of [addLog], one constructor per call site. *)
Inductive LogData :=
| DNull
| DText (s : string)
| DMessageId (messageId : string)
| DFailure (amount customer failure_code : option json).

Record LogEntry := {
  timestamp : string;
  level : Level;
  message : string;
  data : LogData
}.

Record MailOptions := {
  from : string;
  to : string;
  mail_subject : option json;
  text : option json;
  html : string
}.

Record CompletionRequest := {
  model : string;
  content : string;
  max_tokens : Z
}.

(** The language model's side of one [openai.chat.completions.create]
    call, as [generateEmailContent] experiences it. *)
Inductive Completion :=
| Rejected (msg : string)
    (** the call rejects: network failure, timeout, non-2xx answer *)
| NoContent (msg : string)
    (** [completion.choices[0].message.content] throws a TypeError *)
| Unparseable (msg : string)
    (** [JSON.parse] of the returned text throws a SyntaxError *)
| Parsed (v : json).
    (** the returned text parses to [v] *)

(** The mail transport's side of one [transporter.sendMail] call. *)
Inductive Delivery :=
| Sent (messageId : string)
| SendFails (msg : string).

(** Everything outside the process: its environment variables, the
    clock ([clock n] is the ISO-8601 text of the [n]-th reading), the
    uptime counter, and the two remote services. *)
Record Host := {
  env : gmap string string;
  clock : nat -> string;
  uptime : nat -> float;
  create : CompletionRequest -> Completion;
  sendMail : MailOptions -> Delivery
}.

(** Calls that leave the process, and calls of the dispatcher. *)
Inductive Call :=
| Dispatch (failedPayment : json)
| Generate (request : CompletionRequest)
| Mail (mailOptions : MailOptions).

(** One [console.log] line of [addLog]: the bracketed level, the message
    and the extra argument [data || '']. *)
Record ConsoleLine := {
  line_level : Level;
  line_message : string;
  line_data : LogData
}.

(** The process state: the module-level [logs] array, the console, the
    number of clock readings so far, and the calls made so far. *)
Record World := {
  logs : list LogEntry;
  stdout : list ConsoleLine;
  ticks : nat;
  calls : list Call
}.

Definition boot : World :=
  {| logs := []; stdout := []; ticks := 0; calls := [] |}.

(** ** Programs: state passing with exceptions *)

Definition M (A : Type) : Type := World -> Outcome A * World.

Definition ret {A} (a : A) : M A := fun w => (Return a, w).
Definition throw {A} (msg : string) : M A := fun w => (Throw msg, w).

(** A computation that leaves the state as it is. *)
Definition lift {A} (o : Outcome A) : M A := fun w => (o, w).

Definition bind {A B} (m : M A) (k : A -> M B) : M B :=
  fun w =>
    match m w with
    | (Return a, w') => k a w'
    | (Throw msg, w') => (Throw msg, w')
    end.

Definition try_catch {A} (m : M A) (handler : string -> M A) : M A :=
  fun w =>
    match m w with
    | (Return a, w') => (Return a, w')
    | (Throw msg, w') => handler msg w'
    end.

Notation "x <- m ;; k" := (bind m (fun x => k))
  (at level 100, m at next level, right associativity).
Notation "m ;;; k" := (bind m (fun _ => k))
  (at level 100, right associativity).

Definition record (c : Call) : M unit :=
  fun w => (Return tt,
            {| logs := logs w; stdout := stdout w; ticks := ticks w;
               calls := calls w ++ [c] |}).

(** ** JavaScript operators on the fields of a [FailedPayment] *)

(** [x || d]: the default replaces [undefined] and the empty string. *)
Definition or_else (x : option string) (d : string) : string :=
  match x with
  | Some (String c s) => String c s
  | _ => d
  end.

(** [x / 100] first converts [x] to a number; [undefined] becomes NaN. *)
Definition ToNumber (x : option float) : float :=
  match x with Some v => v | None => nan end.

(** [!!process.env.X]: the variable is set to a non-empty string. *)
Definition configured (e : gmap string string) (key : string) : bool :=
  match e !! key with
  | Some (String _ _) => true
  | _ => false
  end.

(** The property read [v.key] for a key that no prototype defines
    ([subject], [body]); reading from [null] throws. *)
Definition get (v : json) (key : string) : M (option json) :=
  match v with
  | JNull =>
      throw ("Cannot read properties of null (reading '" +:+ key +:+ "')")
  | _ => ret (own v key)
  end.

(** ** The log buffer (server.js, lines 27-43) *)

Definition level_name (l : Level) : string :=
  match l with info => "info" | warning => "warning" | error => "error" end.

(** [data || '']: [null] and the empty string print as the empty string. *)
Definition console_data (d : LogData) : LogData :=
  match d with
  | DNull => DText ""
  | _ => d
  end.

(** The text of a console line. *)
Definition render (l : ConsoleLine) : string :=
  "[" +:+ level_name (line_level l) +:+ "] " +:+ line_message l.

(** [logs.push(logEntry)] followed by the conditional [logs.shift()]. *)
Definition push_shift (logs : list LogEntry) (logEntry : LogEntry)
  : list LogEntry :=
  let pushed := logs ++ [logEntry] in
  if (100 <? length pushed)%nat then tail pushed else pushed.

Definition addLog (h : Host) (level : Level) (message : string)
    (data : LogData) : M unit :=
  fun w =>
    let logEntry :=
      {| timestamp := clock h (ticks w);
         level := level; message := message; data := data |} in
    (Return tt,
     {| logs := push_shift (logs w) logEntry;
        stdout := stdout w ++
          [{| line_level := level; line_message := message;
              line_data := console_data data |}];
        ticks := S (ticks w);
        calls := calls w |}).

(** ** The alert content generator (server.js, lines 45-94) *)

(** The fixed text of the two templates around their interpolated
    expressions. *)
Definition prompt_text (name email amount currency code reason method : string)
  : string :=
  unlines [
    "Generate a professional email alert for a failed payment with the following details:";
    "    ";
    "Customer: " +:+ name;
    "Email: " +:+ email;
    "Amount: $" +:+ amount;
    "Currency: " +:+ currency;
    "Failure Code: " +:+ code;
    "Failure Message: " +:+ reason;
    "Payment Method: " +:+ method;
    "";
    "Please create:";
    "1. A clear subject line";
    "2. A professional email body that includes next steps";
    "3. Keep it concise but informative";
    "";
    "Format as JSON with " +:+ quot +:+ "subject" +:+ quot +:+ " and "
      +:+ quot +:+ "body" +:+ quot +:+ " fields."
  ].

Definition subject_text (amount email : string) : string :=
  "🚨 Payment Failed - $" +:+ amount +:+ " from " +:+ email.

Definition message_text (name email amount currency reason code method : string)
  : string :=
  unlines [
    "A payment has failed in your Stripe account.";
    "";
    "Details:";
    "- Customer: " +:+ name +:+ " (" +:+ email +:+ ")";
    "- Amount: $" +:+ amount +:+ " " +:+ currency;
    "- Failure Reason: " +:+ reason;
    "- Failure Code: " +:+ code;
    "- Payment Method: " +:+ method;
    "";
    "Next Steps:";
    "1. Review the failure reason above";
    "2. Contact the customer if needed";
    "3. Check your Stripe dashboard for more details";
    "";
    "This is an automated alert from your Stripe monitoring system."
  ].

(** *** The interpolated expressions, on any value

    [failedPayment] is whatever the caller passes: for the webhook
    endpoint, the value of [event.data.object].  Each expression may
    throw a TypeError. *)

(** The text a template shows for [x || d]. *)
Definition shown (x : option json) (d : string) : Outcome string :=
  if Value.ToBoolean x then Value.ToString x else Return d.

Definition customer_name_of (failedPayment : json) : Outcome string :=
  customer ← read failedPayment "customer";
  shown (optional customer "name") "Unknown".

Definition customer_email_of (failedPayment : json) (d : string)
  : Outcome string :=
  customer ← read failedPayment "customer";
  shown (optional customer "email") d.

Definition amount_of (failedPayment : json) : Outcome string :=
  amount ← read failedPayment "amount";
  x ← Value.ToNumber amount;
  Return (Number.toFixed2 (x / 100)).

(** [failedPayment.currency?.toUpperCase() || 'USD']: the call is made on
    every currency but [undefined] and [null], and only a string has the
    method. *)
Definition currency_of (failedPayment : json) : Outcome string :=
  currency ← read failedPayment "currency";
  match currency with
  | None | Some JNull => Return "USD"
  | Some (JStr s) =>
      let u := toUpperCase s in
      Return (if String.eqb u "" then "USD" else u)
  | Some _ =>
      Throw "failedPayment.currency?.toUpperCase is not a function"
  end.

Definition failure_code_of (failedPayment : json) : Outcome string :=
  code ← read failedPayment "failure_code";
  shown code "Unknown".

Definition failure_message_of (failedPayment : json) : Outcome string :=
  reason ← read failedPayment "failure_message";
  shown reason "No details provided".

Definition payment_method_of (failedPayment : json) : Outcome string :=
  details ← read failedPayment "payment_method_details";
  shown (optional details "type") "Unknown".

(** The prompt template, its expressions evaluated in order. *)
Definition prompt_of (failedPayment : json) : Outcome string :=
  name ← customer_name_of failedPayment;
  email ← customer_email_of failedPayment "Not provided";
  amount ← amount_of failedPayment;
  currency ← currency_of failedPayment;
  code ← failure_code_of failedPayment;
  reason ← failure_message_of failedPayment;
  method ← payment_method_of failedPayment;
  Return (prompt_text name email amount currency code reason method).

(** The object literal of the [catch] block: the subject template, then
    the body template. *)
Definition fallback_of (failedPayment : json) : Outcome AlertContent :=
  subject_amount ← amount_of failedPayment;
  subject_email ← customer_email_of failedPayment "Unknown Customer";
  name ← customer_name_of failedPayment;
  email ← customer_email_of failedPayment "Not provided";
  amount ← amount_of failedPayment;
  currency ← currency_of failedPayment;
  reason ← failure_message_of failedPayment;
  code ← failure_code_of failedPayment;
  method ← payment_method_of failedPayment;
  Return {| subject := subject_text subject_amount subject_email;
            body := message_text name email amount currency reason code
                      method |}.

(** *** The interpolated expressions, on a [FailedPayment] *)

Definition customer_name (p : FailedPayment) : string :=
  or_else (customer p ≫= name) "Unknown".
Definition customer_email (p : FailedPayment) : string :=
  or_else (customer p ≫= email) "Not provided".
Definition subject_customer (p : FailedPayment) : string :=
  or_else (customer p ≫= email) "Unknown Customer".
Definition amount_text (p : FailedPayment) : string :=
  Number.toFixed2 (ToNumber (amount p) / 100).
Definition currency_text (p : FailedPayment) : string :=
  or_else (toUpperCase <$> currency p) "USD".
Definition code_text (p : FailedPayment) : string :=
  or_else (failure_code p) "Unknown".
Definition reason_text (p : FailedPayment) : string :=
  or_else (failure_message p) "No details provided".
Definition method_text (p : FailedPayment) : string :=
  or_else (payment_method_details p ≫= type) "Unknown".

Definition prompt (p : FailedPayment) : string :=
  prompt_text (customer_name p) (customer_email p) (amount_text p)
    (currency_text p) (code_text p) (reason_text p) (method_text p).

Definition fallback_subject (p : FailedPayment) : string :=
  subject_text (amount_text p) (subject_customer p).

Definition fallback_body (p : FailedPayment) : string :=
  message_text (customer_name p) (customer_email p) (amount_text p)
    (currency_text p) (reason_text p) (code_text p) (method_text p).

Definition fallback (p : FailedPayment) : AlertContent :=
  {| subject := fallback_subject p; body := fallback_body p |}.

(** *** The generator *)

(** The request for the prompt [text]. *)
Definition chat_request (text : string) : CompletionRequest :=
  {| model := "gpt-3.5-turbo"; content := text; max_tokens := 500 |}.

Definition completion_request (p : FailedPayment) : CompletionRequest :=
  chat_request (prompt p).

Definition generateEmailContent (h : Host) (failedPayment : json) : M json :=
  try_catch
    (prompt <- lift (prompt_of failedPayment) ;;
     record (Generate (chat_request prompt)) ;;;
     match create h (chat_request prompt) with
     | Rejected msg => throw msg
     | NoContent msg => throw msg
     | Unparseable msg => throw msg
     | Parsed v => ret v
     end)
    (fun error_message =>
       addLog h error "Failed to generate email content with OpenAI"
         (DText error_message) ;;;
       content <- lift (fallback_of failedPayment) ;;
       ret (content_value content)).

(** ** The dispatcher (server.js, lines 96-116) *)

(** [process.env.X || d] *)
Definition env_or (h : Host) (key d : string) : string :=
  or_else (env h !! key) d.

(** [emailContent.body.replace(/\n/g, '<br>')] on whatever [body] is. *)
Definition replace (body : option json) : M string :=
  match body with
  | None => throw "Cannot read properties of undefined (reading 'replace')"
  | Some JNull => throw "Cannot read properties of null (reading 'replace')"
  | Some (JStr s) => ret (replace_newlines s)
  | Some _ => throw "emailContent.body.replace is not a function"
  end.

(** The object literal [mailOptions], its properties evaluated in order. *)
Definition mailOptions (h : Host) (emailContent : json) : M MailOptions :=
  subject <- get emailContent "subject" ;;
  text <- get emailContent "body" ;;
  body <- get emailContent "body" ;;
  html <- replace body ;;
  ret {| from := env_or h "ALERT_EMAIL" "stripe-monitor@yourdomain.com";
         to := env_or h "ALERT_EMAIL" "admin@yourdomain.com";
         mail_subject := subject;
         text := text;
         html := html |}.

Definition sendEmailAlert (h : Host) (failedPayment : json) : M bool :=
  record (Dispatch failedPayment) ;;;
  try_catch
    (emailContent <- generateEmailContent h failedPayment ;;
     mailOptions <- mailOptions h emailContent ;;
     record (Mail mailOptions) ;;;
     match sendMail h mailOptions with
     | Sent messageId =>
         addLog h info "Email alert sent successfully" (DMessageId messageId) ;;;
         ret true
     | SendFails msg => throw msg
     end)
    (fun error_message =>
       addLog h error "Failed to send email alert" (DText error_message) ;;;
       ret false).

(** ** The HTTP surface (server.js, lines 118-217) *)

Inductive Body :=
| RootBody (status service : string) (endpoints : list string)
           (lastActivity : string)
| HealthBody (status timestamp : string) (uptime : float)
             (stripe_configured openai_configured email_configured : bool)
| LogsBody (total : nat) (logs : list LogEntry)
| TestBody (success : bool) (message : string) (testPayment : FailedPayment)
| ErrorBody (success : bool) (error : string)
| ReceivedBody (received : bool)
| TextBody (s : string).

Record Response := {
  status : nat;
  payload : Body
}.

(** [res.json(b)] and [res.status(n).json(b)] / [.send(s)]. *)
Definition res_json (b : Body) : Response := {| status := 200; payload := b |}.
Definition res_status (n : nat) (b : Body) : Response :=
  {| status := n; payload := b |}.

Definition root : M Response :=
  fun w =>
    (Return (res_json (RootBody "active" "Stripe Failed Payment Monitor"
       [ "GET / - This status page";
         "GET /health - Health check";
         "GET /logs - View recent logs";
         "POST /test - Test email alerts";
         "POST /webhook - Stripe webhook endpoint" ]
       (match last (logs w) with
        | Some logEntry => timestamp logEntry
        | None => "No activity yet"
        end))), w).

Definition health (h : Host) : M Response :=
  fun w =>
    (Return (res_json (HealthBody "healthy" (clock h (ticks w))
       (uptime h (ticks w))
       (configured (env h) "STRIPE_SECRET_KEY")
       (configured (env h) "OPENAI_API_KEY")
       (configured (env h) "ALERT_EMAIL"))),
     {| logs := logs w; stdout := stdout w; ticks := S (ticks w);
        calls := calls w |}).

(** [logs.slice(-50)] *)
Definition slice_last (n : nat) (l : list LogEntry) : list LogEntry :=
  drop (length l - n) l.

Definition get_logs : M Response :=
  fun w =>
    (Return (res_json (LogsBody (length (logs w)) (slice_last 50 (logs w)))), w).

Definition testPayment : FailedPayment :=
  {| amount := Some 2999%float;
     currency := Some "usd";
     failure_code := Some "card_declined";
     failure_message := Some "Your card was declined.";
     customer := Some {| name := Some "Test Customer";
                         email := Some "test@example.com" |};
     payment_method_details := Some {| type := Some "card" |} |}.

Definition test (h : Host) : M Response :=
  addLog h info "Manual test triggered" DNull ;;;
  try_catch
    (success <- sendEmailAlert h testPayment ;;
     ret (res_json (TestBody success
            (if success then "Test email sent successfully!"
             else "Test email failed to send")
            testPayment)))
    (fun error_message =>
       addLog h error "Test failed" (DText error_message) ;;;
       ret (res_status 500 (ErrorBody false error_message))).

(** What [JSON.parse(req.body)] does with the request body: it throws a
    SyntaxError, or returns a JSON value. *)
Inductive RequestBody :=
| NotJSON (msg : string)
| JSON (v : json).

Definition JSON_parse (b : RequestBody) : M json :=
  match b with
  | NotJSON msg => throw msg
  | JSON v => ret v
  end.

(** [event.type] is one of the three names: the comparisons are strict,
    so only a string can be. *)
Definition is_failure_event (type : option json) : bool :=
  match type with
  | Some (JStr s) =>
      String.eqb s "payment_intent.payment_failed"
      || String.eqb s "invoice.payment_failed"
      || String.eqb s "charge.failed"
  | _ => false
  end.

Definition webhook (h : Host) (req_body : RequestBody) : M Response :=
  try_catch
    (event <- JSON_parse req_body ;;
     type <- lift (read event "type") ;;
     received <- lift (Value.ToString type) ;;
     addLog h info ("Received Stripe event: " +:+ received) DNull ;;;
     (if is_failure_event type then
        data <- lift (read event "data") ;;
        data <- lift (target data "object") ;;
        paymentData <- lift (target (own data "object") "amount") ;;
        addLog h warning "Payment failure detected"
          (DFailure (own paymentData "amount") (own paymentData "customer")
                    (own paymentData "failure_code")) ;;;
        _ <- sendEmailAlert h paymentData ;;
        ret tt
      else ret tt) ;;;
     ret (res_json (ReceivedBody true)))
    (fun error_message =>
       addLog h error "Webhook processing failed" (DText error_message) ;;;
       ret (res_status 400 (TextBody ("Webhook Error: " +:+ error_message)))).

(** [app.listen]'s callback: the first log entry. *)
Definition port (h : Host) : string :=
  or_else (env h !! "PORT") (Number.toString 3000).

Definition listening (h : Host) : M unit :=
  addLog h info ("Stripe Failed Payment Monitor started on port " +:+ port h)
    DNull.

(** The routing table. *)
Inductive Request :=
| GET_root
| GET_health
| GET_logs
| POST_test
| POST_webhook (req_body : RequestBody).

Definition handle (h : Host) (req : Request) : M Response :=
  match req with
  | GET_root => root
  | GET_health => health h
  | GET_logs => get_logs
  | POST_test => test h
  | POST_webhook req_body => webhook h req_body
  end.

(** The process from its start: the listen callback, then the requests
    one after the other. *)
Fixpoint serve (h : Host) (reqs : list Request) : M (list Response) :=
  match reqs with
  | [] => ret []
  | req :: reqs' =>
      res <- handle h req ;;
      rest <- serve h reqs' ;;
      ret (res :: rest)
  end.

Definition run (h : Host) (reqs : list Request) : M (list Response) :=
  listening h ;;; serve h reqs.

(** A run of [addLog] calls, given by their arguments. *)
Definition LogCall : Type := Level * string * LogData.

Fixpoint appends (h : Host) (cs : list LogCall) : M unit :=
  match cs with
  | [] => ret tt
  | (level, message, data) :: cs' =>
      addLog h level message data ;;; appends h cs'
  end.

(** ** Vocabulary of the statements *)

(** The entries a run of [addLog] calls creates when the clock has been
    read [t] times before. *)
Fixpoint entries (h : Host) (t : nat) (cs : list LogCall) : list LogEntry :=
  match cs with
  | [] => []
  | (level, message, data) :: cs' =>
      {| timestamp := clock h t; level := level; message := message;
         data := data |} :: entries h (S t) cs'
  end.

(** Pushing several entries in turn. *)
Definition pushes (l : list LogEntry) (es : list LogEntry) : list LogEntry :=
  fold_left push_shift es l.

Definition line_of (e : LogEntry) : ConsoleLine :=
  {| line_level := level e; line_message := message e;
     line_data := console_data (data e) |}.

(** [w'] comes from [w] by appending the entries [es] to the log, each
    mirrored on the console, and making the calls [cs]. *)
Definition extends (w w' : World) (es : list LogEntry) (cs : list Call)
  : Prop :=
  logs w' = pushes (logs w) es
  /\ stdout w' = stdout w ++ map line_of es
  /\ calls w' = calls w ++ cs.

Definition is_warning (e : LogEntry) : bool :=
  match level e with warning => true | _ => false end.

Definition warnings (es : list LogEntry) : nat :=
  length (List.filter is_warning es).

Definition is_dispatch (c : Call) : bool :=
  match c with Dispatch _ => true | _ => false end.

(** Dispatch attempts: calls of [sendEmailAlert]. *)
Definition dispatches (cs : list Call) : nat :=
  length (List.filter is_dispatch cs).

(** Messages handed to the mail transport. *)
Definition mails (cs : list Call) : list MailOptions :=
  omap (fun c => match c with Mail m => Some m | _ => None end) cs.

(** A JSON value usable as alert content: an object whose [subject] and
    [body] are strings. *)
Definition as_AlertContent (v : json) : option AlertContent :=
  match own v "subject", own v "body" with
  | Some (JStr s), Some (JStr b) => Some {| subject := s; body := b |}
  | _, _ => None
  end.

(** The body of a value when it is a string. *)
Definition body_text (v : json) : option string :=
  match own v "body" with
  | Some (JStr b) => Some b
  | _ => None
  end.

(** The message [sendEmailAlert] submits for content [v] with body [b]. *)
Definition mail_for (h : Host) (v : json) (b : string) : MailOptions :=
  {| from := env_or h "ALERT_EMAIL" "stripe-monitor@yourdomain.com";
     to := env_or h "ALERT_EMAIL" "admin@yourdomain.com";
     mail_subject := own v "subject";
     text := Some (JStr b);
     html := replace_newlines b |}.

(** The entry [addLog] creates in world [w]. *)
Definition entry (h : Host) (w : World) (level : Level) (message : string)
    (data : LogData) : LogEntry :=
  {| timestamp := clock h (ticks w); level := level; message := message;
     data := data |}.

(** The world after one more call, and after one more log entry. *)
Definition called (w : World) (c : Call) : World := (record c w).2.
Definition logged (h : Host) (w : World) (level : Level) (message : string)
    (data : LogData) : World :=
  (addLog h level message data w).2.

Arguments encode : simpl never.
Arguments prompt_text : simpl never.
Arguments subject_text : simpl never.
Arguments message_text : simpl never.
Arguments prompt : simpl never.
Arguments fallback_subject : simpl never.
Arguments fallback_body : simpl never.
Arguments chat_request : simpl never.
Arguments completion_request : simpl never.
Arguments toUpperCase : simpl never.
Arguments Number.StringToNumber : simpl never.
Arguments Number.toString : simpl never.
Arguments Number.toFixed2 : simpl never.

(** [m] only ever appends: to the log through [push_shift], to the console
    and to the calls. *)
Definition appending {A} (m : M A) : Prop :=
  forall w, exists es cs, extends w (m w).2 es cs.

(** The message of a failed generation. *)
Definition generation_error (c : Completion) : option string :=
  match c with
  | Rejected msg | NoContent msg | Unparseable msg => Some msg
  | Parsed _ => None
  end.

(** What [generateEmailContent] returns for a [FailedPayment]. *)
Definition generated (h : Host) (p : FailedPayment) : json :=
  match create h (completion_request p) with
  | Parsed v => v
  | _ => content_value (fallback p)
  end.

(** The generator returns content that can be mailed as it is. *)
Definition returns_AlertContent (h : Host) (p : FailedPayment) (w : World)
  : Prop :=
  exists v w', generateEmailContent h p w = (Return v, w')
               /\ is_Some (as_AlertContent v).

(** The messages one call of the dispatcher hands to the transport. *)
Definition submitted (h : Host) (p : FailedPayment) (w : World)
  : list MailOptions :=
  mails (drop (length (calls w)) (calls (sendEmailAlert h p w).2)).

(** The payment has none of the optional fields the templates show. *)
Definition lacks_optional_fields (p : FailedPayment) : Prop :=
  customer p = None /\ failure_message p = None /\ failure_code p = None
  /\ payment_method_details p = None.

(** One of the two placeholder texts. *)
Definition placeholder (s : string) : Prop :=
  s = "Unknown" \/ s = "Not provided".

(** The request body is JSON. *)
Definition parses (b : RequestBody) : bool :=
  match b with NotJSON _ => false | JSON _ => true end.

(** *** What processing a webhook request does before it answers *)

(** The text the first log entry shows for the event: [event.type] is
    read and converted. *)
Definition announced (b : RequestBody) : Outcome string :=
  match b with
  | NotJSON msg => Throw msg
  | JSON event =>
      type ← read event "type";
      Value.ToString type
  end.

(** [event.data.object], with the first read of one of its properties. *)
Definition payment_of (event : json) : Outcome json :=
  data ← read event "data";
  data ← target data "object";
  target (own data "object") "amount".

(** The [try] block of the handler without its log entries and without
    the dispatch: the text shown for the event type and, for a failure
    event, the payment object. *)
Definition processing (b : RequestBody) : Outcome (string * option json) :=
  match b with
  | NotJSON msg => Throw msg
  | JSON event =>
      type ← read event "type";
      received ← Value.ToString type;
      if is_failure_event type then
        paymentData ← payment_of event;
        Return (received, Some paymentData)
      else Return (received, None)
  end.

(** Processing throws before the response. *)
Definition processing_fails (b : RequestBody) : bool :=
  match processing b with Throw _ => true | Return _ => false end.

(** The message of what processing throws when it fails. *)
Definition rejection (b : RequestBody) : string :=
  match processing b with Throw msg => msg | Return _ => "" end.

(** The payment object a request hands to the dispatcher. *)
Definition payment (req : Request) : option json :=
  match req with
  | POST_test => Some (encode testPayment)
  | POST_webhook b =>
      match processing b with
      | Return (_, paymentData) => paymentData
      | Throw _ => None
      end
  | _ => None
  end.

(** The two answers of the webhook endpoint. *)
Definition acknowledged : Response := res_json (ReceivedBody true).
Definition webhook_error (msg : string) : Response :=
  res_status 400 (TextBody ("Webhook Error: " +:+ msg)).

(** The configuration value [key] is set and not empty. *)
Definition non_empty (e : gmap string string) (key : string) : Prop :=
  exists v, e !! key = Some v /\ v <> "".

(** ** Sample hosts and inputs *)

(** No configuration, a language model that cannot be reached, a mail
    transport that accepts. *)
Definition offline_host : Host :=
  {| env := ∅;
     clock := fun _ => "2025-01-01T00:00:00.000Z";
     uptime := fun _ => 1%float;
     create := fun _ => Rejected "Connection error.";
     sendMail := fun _ => Sent "<1@example.com>" |}.

(** The operator address configured, a language model that answers with
    an object that has a subject but no body. *)
Definition bodyless_host : Host :=
  {| env := {[ "ALERT_EMAIL" := "ops@example.com" ]};
     clock := fun _ => "2025-01-01T00:00:00.000Z";
     uptime := fun _ => 1%float;
     create := fun _ => Parsed (JObj [("subject", JStr "Payment failed")]);
     sendMail := fun _ => Sent "<1@example.com>" |}.

(** A payment with an amount and nothing else. *)
Definition bare_payment (x : float) : FailedPayment :=
  {| amount := Some x; currency := None; failure_code := None;
     failure_message := None; customer := None;
     payment_method_details := None |}.

(** The event of the specification's example:
    a [payment_intent.payment_failed] of 500 minor units in [usd]. *)
Definition example_event : json :=
  JObj [("type", JStr "payment_intent.payment_failed");
        ("data", JObj [("object",
           JObj [("amount", JNum 500); ("currency", JStr "usd")])])].

(** A failure event without [data], and one whose [data] has no [object]:
    [{"type":"charge.failed"}] and
    [{"type":"payment_intent.payment_failed","data":{}}]. *)
Definition event_without_data : json :=
  JObj [("type", JStr "charge.failed")].
Definition event_without_object : json :=
  JObj [("type", JStr "payment_intent.payment_failed"); ("data", JObj [])].

(** An event whose type cannot be converted to a text:
    [{"type":{"toString":1}}]. *)
Definition event_with_odd_type : json :=
  JObj [("type", JObj [("toString", JNum 1)])].

(** A failure event whose payment has a number as its currency:
    [{"type":"charge.failed","data":{"object":{"amount":500,"currency":5}}}]. *)
Definition payment_with_odd_currency : json :=
  JObj [("amount", JNum 500); ("currency", JNum 5)].
Definition event_with_odd_currency : json :=
  JObj [("type", JStr "charge.failed");
        ("data", JObj [("object", payment_with_odd_currency)])].

(** One more [addLog] call than the buffer holds. *)
Definition hundred_and_one_calls : list LogCall :=
  repeat (info, "Manual test triggered", DNull) 101.

(** A state whose buffer is full. *)
Definition full_buffer : World :=
  (appends offline_host (repeat (info, "Manual test triggered", DNull) 100)
     boot).2.

(** ** Amounts in minor units *)

(** The double of an amount of [n] minor units, as [JSON.parse] reads an
    integer literal (exact below [2^53]). *)
Definition minor_units (n : Z) : float := of_uint63 (Uint63.of_Z n).

(** The digit character of [k], for [k] from 0 to 9. *)
Definition digit (k : Z) : ascii := ascii_of_nat (48 + Z.to_nat k).

(** The printed amount of [n] minor units is [n / 100] with the two
    digits of [n mod 100]: the quotient, a double below [10^21], has [n]
    as its nearest number of hundredths. *)
Definition prints_exactly (n : Z) : bool :=
  let x := (minor_units n / 100)%float in
  negb (PrimFloat.leb 1e21 (PrimFloat.abs x))
  && match Prim2SF x with
     | S754_zero _ => (n =? 0)%Z
     | S754_finite false m e => (Number.hundredths m e =? n)%Z
     | _ => false
     end.

(** [prints_exactly] on the [fuel] amounts from [n] on. *)
Fixpoint all_print_exactly (fuel : nat) (n : Z) : bool :=
  match fuel with
  | O => true
  | S fuel' => prints_exactly n && all_print_exactly fuel' (n + 1)
  end.

(** The amount is shown in fixed notation with two fraction digits: the
    text ends with a point and two decimal digits. *)
Definition two_fraction_digits (s : string) : Prop :=
  exists whole d1 d2,
    s = whole +:+ "." +:+ String (digit d1) (String (digit d2) "")
    /\ (0 <= d1 < 10)%Z /\ (0 <= d2 < 10)%Z.

(** ** Transcripts: what a dispatch and a request log and call *)

(** The state with further calls on record. *)
Definition with_calls (w : World) (cs : list Call) : World :=
  {| logs := logs w; stdout := stdout w; ticks := ticks w;
     calls := calls w ++ cs |}.

(** The message of the TypeError building [mailOptions] throws for
    content without a string body. *)
Definition mail_error (v : json) : string :=
  match v with
  | JNull => "Cannot read properties of null (reading 'subject')"
  | _ =>
      match own v "body" with
      | None => "Cannot read properties of undefined (reading 'replace')"
      | Some JNull => "Cannot read properties of null (reading 'replace')"
      | Some _ => "emailContent.body.replace is not a function"
      end
  end.

(** The message the generator's [catch] block receives, when the [try]
    block throws: from the prompt template, or from the call of the
    language model. *)
Definition generation_failure (h : Host) (failedPayment : json)
  : option string :=
  match prompt_of failedPayment with
  | Throw msg => Some msg
  | Return text => generation_error (create h (chat_request text))
  end.

(** What [generateEmailContent] returns or throws. *)
Definition generation (h : Host) (failedPayment : json) : Outcome json :=
  match prompt_of failedPayment with
  | Return text =>
      match create h (chat_request text) with
      | Parsed v => Return v
      | _ => content_value <$> fallback_of failedPayment
      end
  | Throw _ => content_value <$> fallback_of failedPayment
  end.

(** The requests one call of the generator makes, its log entries, and
    the message the dispatcher then hands to the transport. *)
Definition generation_calls (failedPayment : json) : list Call :=
  match prompt_of failedPayment with
  | Return text => [Generate (chat_request text)]
  | Throw _ => []
  end.

Definition generation_log (h : Host) (failedPayment : json) : list LogCall :=
  match generation_failure h failedPayment with
  | Some msg =>
      [(error, "Failed to generate email content with OpenAI", DText msg)]
  | None => []
  end.

Definition dispatch_mail (h : Host) (failedPayment : json)
  : option MailOptions :=
  match generation h failedPayment with
  | Return v => mail_for h v <$> body_text v
  | Throw _ => None
  end.

(** Whether a dispatch succeeds: content is generated, it has a string
    body, and the transport accepts the message. *)
Definition dispatch_success (h : Host) (failedPayment : json) : bool :=
  match dispatch_mail h failedPayment with
  | Some m =>
      match sendMail h m with
      | Sent _ => true
      | SendFails _ => false
      end
  | None => false
  end.

(** The log entry that closes a dispatch. *)
Definition dispatch_outcome (h : Host) (failedPayment : json) : LogCall :=
  match generation h failedPayment with
  | Return v =>
      match body_text v with
      | Some b =>
          match sendMail h (mail_for h v b) with
          | Sent messageId =>
              (info, "Email alert sent successfully", DMessageId messageId)
          | SendFails msg => (error, "Failed to send email alert", DText msg)
          end
      | None => (error, "Failed to send email alert", DText (mail_error v))
      end
  | Throw msg => (error, "Failed to send email alert", DText msg)
  end.

(** The [addLog] calls of one dispatch, in order. *)
Definition dispatch_log (h : Host) (failedPayment : json) : list LogCall :=
  generation_log h failedPayment ++ [dispatch_outcome h failedPayment].

(** The calls of one dispatch, in order. *)
Definition dispatch_calls (h : Host) (failedPayment : json) : list Call :=
  Dispatch failedPayment :: generation_calls failedPayment
  ++ match dispatch_mail h failedPayment with
     | Some m => [Mail m]
     | None => []
     end.

(** The entry of a webhook request that processing rejects. *)
Definition rejected (msg : string) : LogCall :=
  (error, "Webhook processing failed", DText msg).

(** The [addLog] calls of one request, in order. *)
Definition transcript (h : Host) (req : Request) : list LogCall :=
  match req with
  | GET_root | GET_health | GET_logs => []
  | POST_test =>
      (info, "Manual test triggered", DNull) :: dispatch_log h testPayment
  | POST_webhook b =>
      match announced b with
      | Throw msg => [rejected msg]
      | Return received =>
          (info, "Received Stripe event: " +:+ received, DNull) ::
          match processing b with
          | Throw msg => [rejected msg]
          | Return (_, Some paymentData) =>
              (warning, "Payment failure detected",
               DFailure (own paymentData "amount")
                        (own paymentData "customer")
                        (own paymentData "failure_code"))
              :: dispatch_log h paymentData
          | Return (_, None) => []
          end
      end
  end.

(** The calls of one request, in order. *)
Definition outside_calls (h : Host) (req : Request) : list Call :=
  match payment req with
  | Some failedPayment => dispatch_calls h failedPayment
  | None => []
  end.

(** The answer to a [POST] request. *)
Definition post_answer (h : Host) (req : Request) : Response :=
  match req with
  | POST_webhook b =>
      if processing_fails b then webhook_error (rejection b)
      else acknowledged
  | _ =>
      res_json (TestBody (dispatch_success h testPayment)
        (if dispatch_success h testPayment
         then "Test email sent successfully!"
         else "Test email failed to send")
        testPayment)
  end.

Definition is_post (req : Request) : bool :=
  match req with
  | POST_test | POST_webhook _ => true
  | _ => false
  end.

(** ** Fields that are empty strings *)

(** An empty string counts as a missing field. *)
Definition present (x : option string) : option string :=
  match x with
  | Some (String c s) => x
  | _ => None
  end.

(** The payment with every empty string taken as missing, and a customer
    or payment method without fields taken as missing too. *)
Definition without_blanks (p : FailedPayment) : FailedPayment :=
  {| amount := amount p;
     currency := present (currency p);
     failure_code := present (failure_code p);
     failure_message := present (failure_message p);
     customer :=
       match customer p with
       | Some c =>
           match present (name c), present (email c) with
           | None, None => None
           | n, e => Some {| name := n; email := e |}
           end
       | None => None
       end;
     payment_method_details :=
       match payment_method_details p with
       | Some d =>
           match present (type d) with
           | None => None
           | t => Some {| type := t |}
           end
       | None => None
       end |}.

(** The number of line feeds of a text. *)
Fixpoint line_feeds (s : string) : nat :=
  match s with
  | EmptyString => 0
  | String c s' => (if Ascii.eqb c "010" then 1 else 0) + line_feeds s'
  end.

(** A lower-case ASCII letter. *)
Definition is_lower (c : ascii) : bool :=
  (97 <=? nat_of_ascii c)%nat && (nat_of_ascii c <=? 122)%nat.

(** A text of ASCII characters only. *)
Fixpoint is_ascii (s : string) : bool :=
  match s with
  | EmptyString => true
  | String c s' => (nat_of_ascii c <? 128)%nat && is_ascii s'
  end.

(** The upper-case letters of an ASCII text, byte by byte. *)
Fixpoint ascii_upper (s : string) : string :=
  match s with
  | EmptyString => EmptyString
  | String c s' => String (upper c) (ascii_upper s')
  end.

(** The entry of an [addLog] call made at the [n]-th clock reading. *)
Definition stamped (h : Host) (n : nat) (c : LogCall) : LogEntry :=
  {| timestamp := clock h n; level := c.1.1; message := c.1.2;
     data := c.2 |}.

(** The status a request is answered with. *)
Definition expected_status (req : Request) : nat :=
  match req with
  | POST_webhook b => if processing_fails b then 400 else 200
  | _ => 200
  end.

(** A payment object without any property. *)
Definition payment_without_amount : FailedPayment :=
  {| amount := None; currency := None; failure_code := None;
     failure_message := None; customer := None;
     payment_method_details := None |}.

(** ** Requests that alert *)

(** The request reaches the dispatcher: the test request, and a webhook
    request with a failure event that carries a payment object. *)
Definition alerts (req : Request) : bool :=
  match payment req with Some _ => true | None => false end.

(** The request reaches the language model: it alerts, and the prompt
    can be built from its payment object. *)
Definition asks_model (req : Request) : bool :=
  match payment req with
  | Some failedPayment =>
      match prompt_of failedPayment with
      | Return _ => true
      | Throw _ => false
      end
  | None => false
  end.

Definition is_generate (c : Call) : bool :=
  match c with Generate _ => true | _ => false end.

(** Requests made to the language model. *)
Definition generations (cs : list Call) : nat :=
  length (List.filter is_generate cs).

(** * Properties *)

(** In the statements, [p] is a payment of the shape the specification
    gives it, and [h] any host. *)
Implicit Types (p : FailedPayment) (h : Host).

(** ** The log buffer *)

Section LogBuffer.

Implicit Types (l es : list LogEntry) (e : LogEntry).

Lemma push_shift_cases l e :
  push_shift l e = l ++ [e]
  \/ exists oldest rest, l = oldest :: rest /\ push_shift l e = rest ++ [e].
Proof.
  unfold push_shift.
  destruct (100 <? length (l ++ [e]))%nat eqn:Hfull; [right | by left].
  destruct l as [|oldest rest]; [by apply Nat.ltb_lt in Hfull; simpl in Hfull; lia |].
  by exists oldest, rest.
Qed.

Lemma push_shift_drop l e :
  length l <= 100 ->
  push_shift l e = drop (length (l ++ [e]) - 100) (l ++ [e]).
Proof.
  intros Hl. unfold push_shift. rewrite length_app. simpl.
  destruct (100 <? length l + 1)%nat eqn:Hfull.
  - apply Nat.ltb_lt in Hfull.
    replace (length l + 1 - 100) with 1 by lia.
    by destruct l.
  - apply Nat.ltb_ge in Hfull.
    by replace (length l + 1 - 100) with 0 by lia.
Qed.

Lemma push_shift_length l e :
  length l <= 100 -> length (push_shift l e) <= 100.
Proof.
  intros Hl. rewrite push_shift_drop by done.
  rewrite length_drop, length_app. simpl. lia.
Qed.

Lemma pushes_snoc l es e :
  pushes l (es ++ [e]) = push_shift (pushes l es) e.
Proof. unfold pushes. by rewrite fold_left_app. Qed.

Lemma pushes_app l es1 es2 :
  pushes l (es1 ++ es2) = pushes (pushes l es1) es2.
Proof. unfold pushes. by rewrite fold_left_app. Qed.

(** The buffer is what a window of width 100 shows of everything pushed. *)
Lemma pushes_drop l es :
  length l <= 100 ->
  pushes l es = drop (length (l ++ es) - 100) (l ++ es).
Proof.
  intros Hl. induction es as [|e es IH] using rev_ind.
  - rewrite app_nil_r. simpl.
    by replace (length l - 100) with 0 by lia.
  - rewrite pushes_snoc, IH.
    rewrite push_shift_drop by (rewrite length_drop; lia).
    rewrite length_app, length_drop. simpl.
    rewrite (app_assoc l es [e]).
    set (k := length (l ++ es)).
    rewrite (length_app (l ++ es) [e]). fold k. simpl.
    destruct (decide (k < 100)) as [Hk|Hk].
    + replace (k - 100) with 0 by lia.
      replace (k - 0 + 1 - 100) with 0 by lia.
      by replace (k + 1 - 100) with 0 by lia.
    + replace (k - (k - 100) + 1 - 100) with 1 by lia.
      rewrite <- (drop_app_le (l ++ es) [e] (k - 100)) by (fold k; lia).
      rewrite drop_drop. f_equal. lia.
Qed.

Lemma pushes_length l es :
  length l <= 100 -> length (pushes l es) <= 100.
Proof.
  intros Hl. rewrite pushes_drop by done. rewrite length_drop. lia.
Qed.

Lemma pushes_suffix l es : pushes l es `suffix_of` (l ++ es).
Proof.
  induction es as [|e es IH] using rev_ind.
  - by rewrite app_nil_r.
  - rewrite pushes_snoc, app_assoc.
    destruct (push_shift_cases (pushes l es) e) as [->|(x & rest & Hx & ->)].
    + by apply suffix_app.
    + apply suffix_app. etrans; [|exact IH]. rewrite Hx. by apply suffix_cons_r.
Qed.

End LogBuffer.

(** ** How programs change the world *)

Lemma extends_refl w : extends w w [] [].
Proof. unfold extends. by rewrite !app_nil_r. Qed.

Lemma extends_trans w1 w2 w3 es1 es2 cs1 cs2 :
  extends w1 w2 es1 cs1 -> extends w2 w3 es2 cs2 ->
  extends w1 w3 (es1 ++ es2) (cs1 ++ cs2).
Proof.
  intros (Hl1 & Ho1 & Hc1) (Hl2 & Ho2 & Hc2). unfold extends.
  rewrite Hl2, Hl1, Ho2, Ho1, Hc2, Hc1, pushes_app, map_app, !app_assoc.
  done.
Qed.

Lemma appending_ret {A} (a : A) : appending (ret a).
Proof. intros w. exists [], []. apply extends_refl. Qed.

Lemma appending_throw {A} msg : appending (@throw A msg).
Proof. intros w. exists [], []. apply extends_refl. Qed.

Lemma appending_bind {A B} (m : M A) (k : A -> M B) :
  appending m -> (forall a, appending (k a)) -> appending (bind m k).
Proof.
  intros Hm Hk w. unfold bind.
  destruct (Hm w) as (es1 & cs1 & H1).
  destruct (m w) as [[a|msg] w1]; simpl in H1.
  - destruct (Hk a w1) as (es2 & cs2 & H2).
    exists (es1 ++ es2), (cs1 ++ cs2). by eapply extends_trans.
  - by exists es1, cs1.
Qed.

Lemma appending_try_catch {A} (m : M A) (handler : string -> M A) :
  appending m -> (forall msg, appending (handler msg)) ->
  appending (try_catch m handler).
Proof.
  intros Hm Hk w. unfold try_catch.
  destruct (Hm w) as (es1 & cs1 & H1).
  destruct (m w) as [[a|msg] w1]; simpl in H1.
  - by exists es1, cs1.
  - destruct (Hk msg w1) as (es2 & cs2 & H2).
    exists (es1 ++ es2), (cs1 ++ cs2). by eapply extends_trans.
Qed.

Lemma appending_record c : appending (record c).
Proof.
  intros w. exists [], [c]. unfold extends. simpl. by rewrite app_nil_r.
Qed.

Lemma addLog_extends h lv msg d w :
  extends w (addLog h lv msg d w).2
    [{| timestamp := clock h (ticks w); level := lv; message := msg;
        data := d |}] [].
Proof. unfold extends. simpl. by rewrite app_nil_r. Qed.

Lemma extends_logged h lv msg d w w' :
  w' = logged h w lv msg d ->
  extends w w' [entry h w lv msg d] [].
Proof. intros ->. apply addLog_extends. Qed.

Lemma appending_addLog h lv msg d : appending (addLog h lv msg d).
Proof. intros w. eexists _, _. apply addLog_extends. Qed.

Lemma appending_get v key : appending (get v key).
Proof.
  destruct v; simpl; first [apply appending_throw | apply appending_ret].
Qed.

Lemma appending_replace b : appending (replace b).
Proof.
  destruct b as [[]|]; simpl; first [apply appending_throw | apply appending_ret].
Qed.

Lemma appending_lift {A} (o : Outcome A) : appending (lift o).
Proof. intros w. exists [], []. apply extends_refl. Qed.

Create HintDb appending.
#[local] Hint Resolve appending_bind appending_try_catch appending_record
  appending_addLog appending_get appending_replace appending_lift
  appending_throw : appending.
#[local] Hint Extern 1 (appending (ret _)) => apply appending_ret : appending.
#[local] Hint Extern 2 (appending (match ?x with _ => _ end)) =>
  destruct x : appending.
#[local] Hint Extern 2 (forall _, appending _) => intro : appending.

Lemma appending_generateEmailContent h (v : json) :
  appending (generateEmailContent h v).
Proof. unfold generateEmailContent. auto 10 with appending. Qed.

Lemma appending_sendEmailAlert h (v : json) :
  appending (sendEmailAlert h v).
Proof.
  unfold sendEmailAlert, mailOptions.
  auto 20 using appending_generateEmailContent with appending.
Qed.

Lemma appending_handle h req : appending (handle h req).
Proof.
  destruct req as [| | | |b]; simpl.
  - intros w. exists [], []. apply extends_refl.
  - intros w. exists [], []. unfold extends. simpl. by rewrite !app_nil_r.
  - intros w. exists [], []. apply extends_refl.
  - unfold test. auto 20 using appending_sendEmailAlert with appending.
  - unfold webhook, JSON_parse.
    auto 30 using appending_sendEmailAlert with appending.
Qed.

Lemma appending_serve h reqs : appending (serve h reqs).
Proof.
  induction reqs as [|req reqs IH]; simpl;
    auto 10 using appending_handle with appending.
Qed.

Lemma appending_run h reqs : appending (run h reqs).
Proof.
  unfold run, listening. auto using appending_serve with appending.
Qed.

(** ** Runs of [addLog] *)

Lemma entries_length h t cs : length (entries h t cs) = length cs.
Proof.
  revert t. induction cs as [|[[lv msg] d] cs IH]; intros t; simpl; [done|].
  by rewrite IH.
Qed.

Lemma appends_run h cs w :
  exists w', appends h cs w = (Return tt, w')
    /\ logs w' = pushes (logs w) (entries h (ticks w) cs)
    /\ ticks w' = ticks w + length cs.
Proof.
  revert w. induction cs as [|[[lv msg] d] cs IH]; intros w; simpl.
  - exists w. unfold ret. split_and!; [done | done | lia].
  - unfold bind at 1. simpl.
    destruct (IH (logged h w lv msg d)) as (w' & Hrun & Hlogs & Hticks).
    exists w'. unfold logged in *. simpl in *.
    split_and!; [done | done | lia].
Qed.

(** C3. Once more than 100 entries have been appended, the buffer holds
    exactly 100 entries, and they are the last 100 appended, in the order
    of their insertion.  This holds from every state whose buffer is
    within the bound, the initial empty buffer among them. *)
Theorem log_buffer_keeps_last_100 h cs w :
  length (logs w) <= 100 ->
  100 < length cs ->
  let w' := (appends h cs w).2 in
  length (logs w') = 100
  /\ logs w' = drop (length cs - 100) (entries h (ticks w) cs).
Proof.
  intros Hw Hcs w'.
  destruct (appends_run h cs w) as (w1 & Hrun & Hlogs & _).
  subst w'. rewrite Hrun. simpl. rewrite Hlogs, pushes_drop by done.
  pose proof (entries_length h (ticks w) cs) as Hlen.
  rewrite length_app, Hlen.
  split.
  - rewrite length_drop, length_app, Hlen. lia.
  - rewrite drop_app_ge by lia. f_equal. lia.
Qed.

(** After 101 appends to the empty buffer it holds 100 entries. *)
Lemma log_buffer_keeps_last_100_witness :
  length (logs boot) <= 100
  /\ 100 < length hundred_and_one_calls
  /\ length (logs (appends offline_host hundred_and_one_calls boot).2) = 100.
Proof.
  assert (length (logs boot) <= 100) as Hboot by (simpl; lia).
  assert (100 < length hundred_and_one_calls) as Hcalls
    by (vm_compute; lia).
  split; [exact Hboot|]. split; [exact Hcalls|].
  apply (log_buffer_keeps_last_100 offline_host hundred_and_one_calls boot
           Hboot Hcalls).
Defined.

(** A handler keeps the buffer within the bound. *)
Lemma handle_bounded h req w :
  length (logs w) <= 100 -> length (logs (handle h req w).2) <= 100.
Proof.
  intros Hw. destruct (appending_handle h req w) as (es & cs & Hlogs & _).
  rewrite Hlogs. by apply pushes_length.
Qed.

(** ** The generator and the dispatcher, step by step *)

(** *** A [FailedPayment] as a value: the templates never throw *)

Ltac fields p :=
  unfold own, encode; destruct p as [[?|] [?|] [?|] [?|] [?|] [?|]];
  reflexivity.

Lemma own_amount (p : FailedPayment) : own p "amount" = JNum <$> amount p.
Proof. fields p. Qed.

Lemma own_currency (p : FailedPayment) :
  own p "currency" = JStr <$> currency p.
Proof. fields p. Qed.

Lemma own_failure_code (p : FailedPayment) :
  own p "failure_code" = JStr <$> failure_code p.
Proof. fields p. Qed.

Lemma own_failure_message (p : FailedPayment) :
  own p "failure_message" = JStr <$> failure_message p.
Proof. fields p. Qed.

Lemma own_customer (p : FailedPayment) :
  own p "customer" = encode_customer <$> customer p.
Proof. fields p. Qed.

Lemma own_payment_method_details (p : FailedPayment) :
  own p "payment_method_details"
  = encode_details <$> payment_method_details p.
Proof. fields p. Qed.

Lemma read_encode (p : FailedPayment) key : read p key = Return (own p key).
Proof. reflexivity. Qed.

Lemma shown_string x d : shown (JStr <$> x) d = Return (or_else x d).
Proof. by destruct x as [[|c s]|]. Qed.

Lemma customer_name_of_encode (p : FailedPayment) :
  customer_name_of p = Return (customer_name p).
Proof.
  unfold customer_name_of, customer_name.
  rewrite read_encode, own_customer. simpl.
  destruct (customer p) as [[n e]|]; simpl; [|done].
  rewrite <- shown_string. by destruct n, e.
Qed.

Lemma customer_email_of_encode (p : FailedPayment) d :
  customer_email_of p d = Return (or_else (customer p ≫= email) d).
Proof.
  unfold customer_email_of. rewrite read_encode, own_customer. simpl.
  destruct (customer p) as [[n e]|]; simpl; [|done].
  rewrite <- shown_string. by destruct n, e.
Qed.

Lemma amount_of_encode (p : FailedPayment) :
  amount_of p = Return (amount_text p).
Proof.
  unfold amount_of, amount_text. rewrite read_encode, own_amount.
  by destruct (amount p).
Qed.

Lemma currency_of_encode (p : FailedPayment) :
  currency_of p = Return (currency_text p).
Proof.
  unfold currency_of, currency_text. rewrite read_encode, own_currency.
  destruct (currency p) as [s|]; simpl; [|done].
  by destruct (toUpperCase s).
Qed.

Lemma failure_code_of_encode (p : FailedPayment) :
  failure_code_of p = Return (code_text p).
Proof.
  unfold failure_code_of, code_text.
  rewrite read_encode, own_failure_code. apply shown_string.
Qed.

Lemma failure_message_of_encode (p : FailedPayment) :
  failure_message_of p = Return (reason_text p).
Proof.
  unfold failure_message_of, reason_text.
  rewrite read_encode, own_failure_message. apply shown_string.
Qed.

Lemma payment_method_of_encode (p : FailedPayment) :
  payment_method_of p = Return (method_text p).
Proof.
  unfold payment_method_of, method_text.
  rewrite read_encode, own_payment_method_details. simpl.
  destruct (payment_method_details p) as [[t]|]; simpl; [|done].
  rewrite <- shown_string. by destruct t.
Qed.

Lemma prompt_of_encode (p : FailedPayment) : prompt_of p = Return (prompt p).
Proof.
  unfold prompt_of.
  rewrite customer_name_of_encode, customer_email_of_encode,
    amount_of_encode, currency_of_encode, failure_code_of_encode,
    failure_message_of_encode, payment_method_of_encode.
  reflexivity.
Qed.

Lemma fallback_of_encode (p : FailedPayment) :
  fallback_of p = Return (fallback p).
Proof.
  unfold fallback_of.
  rewrite customer_name_of_encode, !customer_email_of_encode,
    amount_of_encode, currency_of_encode, failure_code_of_encode,
    failure_message_of_encode, payment_method_of_encode.
  reflexivity.
Qed.

(** *** The generator on any value *)

Lemma generate_any h v w :
  generateEmailContent h v w =
    (generation h v,
     (appends h (generation_log h v) (with_calls w (generation_calls v))).2).
Proof.
  unfold generateEmailContent, generation, generation_log,
    generation_failure, generation_calls, try_catch, bind, lift.
  destruct (prompt_of v) as [text|msg]; simpl.
  - by destruct (create h (chat_request text)); simpl;
      destruct (fallback_of v).
  - unfold with_calls. rewrite app_nil_r.
    by destruct (fallback_of v), w.
Qed.

Lemma generation_encode h (p : FailedPayment) :
  generation h p = Return (generated h p).
Proof.
  unfold generation, generated. rewrite prompt_of_encode, fallback_of_encode.
  change (chat_request (prompt p)) with (completion_request p).
  by destruct (create h (completion_request p)).
Qed.

Lemma generation_failure_encode h (p : FailedPayment) :
  generation_failure h p = generation_error (create h (completion_request p)).
Proof. unfold generation_failure. by rewrite prompt_of_encode. Qed.

Lemma generation_calls_encode (p : FailedPayment) :
  generation_calls p = [Generate (completion_request p)].
Proof. unfold generation_calls. by rewrite prompt_of_encode. Qed.

Lemma generate_run h (p : FailedPayment) w :
  generateEmailContent h p w =
    (Return (generated h p),
     let w1 := called w (Generate (completion_request p)) in
     match generation_error (create h (completion_request p)) with
     | Some msg =>
         logged h w1 error "Failed to generate email content with OpenAI"
           (DText msg)
     | None => w1
     end).
Proof.
  rewrite generate_any, generation_encode. unfold generation_log.
  rewrite generation_failure_encode, generation_calls_encode.
  by destruct (generation_error (create h (completion_request p))).
Qed.

Lemma mailOptions_ok h v b w :
  body_text v = Some b -> mailOptions h v w = (Return (mail_for h v b), w).
Proof.
  unfold body_text, mailOptions, mail_for. intros Hb.
  destruct v; try discriminate. simpl in *.
  unfold bind, ret. simpl.
  destruct (snd <$> List.find _ fields) as [[]|] eqn:Hfind; try discriminate.
  by injection Hb as ->.
Qed.

Lemma mailOptions_fail h v w :
  body_text v = None -> exists msg, mailOptions h v w = (Throw msg, w).
Proof.
  unfold body_text, mailOptions. intros Hb.
  destruct v; simpl in *; try by eexists.
  unfold bind, ret. simpl.
  destruct (snd <$> List.find _ fields) as [[]|] eqn:Hfind;
    try discriminate; by eexists.
Qed.

(** One call of the dispatcher: it returns, having logged no warning,
    called the generator once and the mail transport at most once, with the
    message built from the generated content. *)
Lemma sendEmailAlert_spec h p w :
  exists success w' es ms,
    sendEmailAlert h p w = (Return success, w')
    /\ extends w w' es
         (Dispatch p :: Generate (completion_request p) :: map Mail ms)
    /\ warnings es = 0
    /\ match body_text (generated h p) with
       | Some b =>
           ms = [mail_for h (generated h p) b]
           /\ (success = true <->
               exists id, sendMail h (mail_for h (generated h p) b) = Sent id)
       | None => ms = [] /\ success = false
       end.
Proof.
  unfold sendEmailAlert, bind at 1, try_catch, bind.
  simpl. rewrite generate_run.
  set (w1 := called _ (Generate _)).
  set (w2 := match generation_error _ with Some _ => _ | None => _ end).
  assert (exists es2, extends w w2 es2 [Dispatch p; Generate (completion_request p)]
                      /\ warnings es2 = 0) as (es2 & Hw2 & Hes2).
  { subst w2. destruct (generation_error _) as [msg|].
    - exists [entry h w1 error "Failed to generate email content with OpenAI"
                (DText msg)].
      split; [|done]. unfold extends, logged, pushes. simpl.
      by rewrite <- !app_assoc.
    - exists []. split; [|done]. unfold extends, pushes. simpl.
      by rewrite app_nil_r, <- !app_assoc. }
  clearbody w2. clear w1.
  destruct (body_text (generated h p)) as [b|] eqn:Hb.
  - rewrite (mailOptions_ok _ _ b) by done. simpl.
    set (m := mail_for h (generated h p) b).
    set (w3 := {| logs := logs w2; stdout := stdout w2; ticks := ticks w2;
                  calls := calls w2 ++ [Mail m] |}).
    assert (extends w2 w3 [] [Mail m]) as Hw3.
    { unfold extends, pushes. simpl. by rewrite app_nil_r. }
    destruct (sendMail h m) as [id|msg] eqn:Hsend; simpl.
    + exists true,
        (logged h w3 info "Email alert sent successfully" (DMessageId id)),
        (es2 ++ [] ++ [entry h w3 info "Email alert sent successfully"
                         (DMessageId id)]), [m].
      split; [reflexivity|]. split; [|split].
      * change (Dispatch p :: Generate (completion_request p) :: map Mail [m])
          with ([Dispatch p; Generate (completion_request p)] ++ [Mail m] ++ []).
        eapply extends_trans; [exact Hw2|].
        eapply extends_trans; [exact Hw3|]. apply addLog_extends.
      * unfold warnings in *. rewrite List.filter_app, length_app, Hes2. done.
      * split; [done|]. split; [by eexists | done].
    + exists false,
        (logged h w3 error "Failed to send email alert" (DText msg)),
        (es2 ++ [] ++ [entry h w3 error "Failed to send email alert"
                         (DText msg)]), [m].
      split; [reflexivity|]. split; [|split].
      * change (Dispatch p :: Generate (completion_request p) :: map Mail [m])
          with ([Dispatch p; Generate (completion_request p)] ++ [Mail m] ++ []).
        eapply extends_trans; [exact Hw2|].
        eapply extends_trans; [exact Hw3|]. apply addLog_extends.
      * unfold warnings in *. rewrite List.filter_app, length_app, Hes2. done.
      * split; [done|]. split; [done | by intros [id Hid]].
  - destruct (mailOptions_fail h _ w2 Hb) as [msg ->]. simpl.
    exists false,
      (logged h w2 error "Failed to send email alert" (DText msg)),
      (es2 ++ [entry h w2 error "Failed to send email alert" (DText msg)]), [].
    split; [reflexivity|]. split; [|split].
    + change (Dispatch p :: Generate (completion_request p) :: map Mail [])
        with ([Dispatch p; Generate (completion_request p)] ++ []).
      eapply extends_trans; [exact Hw2|]. apply addLog_extends.
    + unfold warnings in *. rewrite List.filter_app, length_app, Hes2. done.
    + done.
Qed.


(** ** Transcripts of the dispatcher and of the handlers *)

Lemma appends_cons h lv msg d cs w :
  appends h ((lv, msg, d) :: cs) w = appends h cs (logged h w lv msg d).
Proof. reflexivity. Qed.

Lemma appends_app h cs1 cs2 w :
  (appends h (cs1 ++ cs2) w).2 = (appends h cs2 (appends h cs1 w).2).2.
Proof.
  revert w. induction cs1 as [|[[lv msg] d] cs1 IH]; intros w; [done|].
  rewrite <- app_comm_cons, !appends_cons. apply IH.
Qed.

Lemma appends_with_calls h cs w c :
  (appends h cs (with_calls w c)).2 = with_calls (appends h cs w).2 c.
Proof.
  revert w. induction cs as [|[[lv msg] d] cs IH]; intros w; [done|].
  rewrite !appends_cons. apply (IH (logged h w lv msg d)).
Qed.

Lemma with_calls_app w c1 c2 :
  with_calls (with_calls w c1) c2 = with_calls w (c1 ++ c2).
Proof. unfold with_calls. simpl. by rewrite app_assoc. Qed.

Lemma with_calls_nil w : with_calls w [] = w.
Proof. destruct w. unfold with_calls. simpl. by rewrite app_nil_r. Qed.

Lemma appends_effect h cs w :
  extends w (appends h cs w).2 (entries h (ticks w) cs) []
  /\ ticks (appends h cs w).2 = ticks w + length cs.
Proof.
  revert w. induction cs as [|[[lv msg] d] cs IH]; intros w.
  - simpl. split; [apply extends_refl | lia].
  - rewrite appends_cons.
    destruct (IH (logged h w lv msg d)) as [Hext Hticks].
    split; [|rewrite Hticks; simpl; lia].
    change (extends w (appends h cs (logged h w lv msg d)).2
              ([entry h w lv msg d] ++ entries h (S (ticks w)) cs) ([] ++ [])).
    eapply extends_trans; [apply addLog_extends | exact Hext].
Qed.

Lemma mailOptions_error h v w :
  body_text v = None -> mailOptions h v w = (Throw (mail_error v), w).
Proof.
  unfold body_text, mailOptions, mail_error. intros Hb.
  destruct v; simpl in *; try done.
  unfold bind, ret. simpl.
  by destruct (snd <$> List.find _ fields) as [[]|].
Qed.

(** One dispatch, as a whole: its result, its log entries and its calls,
    for whatever value it is called with. *)
Lemma dispatch_run h (v : json) w :
  sendEmailAlert h v w =
    (Return (dispatch_success h v),
     (appends h (dispatch_log h v) (with_calls w (dispatch_calls h v))).2).
Proof.
  unfold sendEmailAlert, bind at 1, try_catch, bind. simpl.
  rewrite generate_any.
  unfold dispatch_success, dispatch_log, dispatch_outcome, dispatch_calls,
    dispatch_mail.
  rewrite appends_app, !appends_with_calls.
  set (w1 := (appends h (generation_log h v) w).2).
  change {| logs := logs w; stdout := stdout w; ticks := ticks w;
            calls := calls w ++ [Dispatch v] |}
    with (with_calls w [Dispatch v]).
  rewrite appends_with_calls. fold w1. rewrite with_calls_app.
  destruct (generation h v) as [c|msg]; simpl.
  - destruct (body_text c) as [b|] eqn:Hb; simpl.
    + rewrite (mailOptions_ok _ _ b) by done. simpl.
      destruct (sendMail h (mail_for h c b)) as [id|msg]; simpl;
        unfold with_calls, logged; simpl; by rewrite <- !app_assoc.
    + rewrite mailOptions_error by done. simpl.
      unfold with_calls, logged; simpl. by rewrite app_nil_r.
  - unfold with_calls, logged; simpl. by rewrite app_nil_r.
Qed.

(** A dispatch for a payment of the specified shape. *)
Lemma dispatch_mail_encode h p :
  dispatch_mail h p
  = mail_for h (generated h p) <$> body_text (generated h p).
Proof. unfold dispatch_mail. by rewrite generation_encode. Qed.

Lemma test_run h w :
  test h w =
    (Return (post_answer h POST_test),
     (appends h (transcript h POST_test)
        (with_calls w (outside_calls h POST_test))).2).
Proof.
  unfold test, bind, try_catch. simpl. rewrite dispatch_run. reflexivity.
Qed.

Lemma read_own (v : json) key x : read v key = Return x -> x = own v key.
Proof. destruct v; simpl; congruence. Qed.

Lemma webhook_run h b w :
  webhook h b w =
    (Return (post_answer h (POST_webhook b)),
     (appends h (transcript h (POST_webhook b))
        (with_calls w (outside_calls h (POST_webhook b)))).2).
Proof.
  unfold webhook, post_answer, transcript, outside_calls, payment,
    processing_fails, rejection, processing, announced, payment_of,
    try_catch, bind, lift.
  destruct b as [msg|event]; simpl; [by rewrite app_nil_r|].
  destruct (read event "type") as [type|msg]; simpl;
    [|by rewrite app_nil_r].
  destruct (Value.ToString type) as [received|msg]; simpl;
    [|by rewrite app_nil_r].
  destruct (is_failure_event type); simpl; [|by rewrite app_nil_r].
  destruct (read event "data") as [data|msg]; simpl;
    [|by rewrite app_nil_r].
  destruct (target data "object") as [data'|msg]; simpl;
    [|by rewrite app_nil_r].
  destruct (target (own data' "object") "amount") as [paymentData|msg];
    simpl; [|by rewrite app_nil_r].
  rewrite dispatch_run. reflexivity.
Qed.

Lemma post_run h req w :
  is_post req = true ->
  handle h req w =
    (Return (post_answer h req),
     (appends h (transcript h req) (with_calls w (outside_calls h req))).2).
Proof.
  destruct req; try discriminate; intros _; simpl.
  - apply test_run.
  - apply webhook_run.
Qed.

(** ** Requests, one by one *)

Lemma handle_status h req w :
  exists res w',
    handle h req w = (Return res, w') /\ status res = expected_status req.
Proof.
  destruct (is_post req) eqn:Hpost.
  - rewrite post_run by done. eexists _, _. split; [reflexivity|].
    destruct req as [| | | |b]; try discriminate; simpl; [done|].
    by destruct (processing_fails b).
  - destruct req; try discriminate; by eexists _, _.
Qed.

Lemma handle_logs h req w :
  logs (handle h req w).2
  = pushes (logs w) (entries h (ticks w) (transcript h req)).
Proof.
  destruct (is_post req) eqn:Hpost.
  - rewrite post_run by done. simpl. rewrite appends_with_calls. simpl.
    by destruct (appends_effect h (transcript h req) w) as [(-> & _) _].
  - by destruct req.
Qed.

Lemma handle_calls h req w :
  calls (handle h req w).2 = calls w ++ outside_calls h req.
Proof.
  destruct (is_post req) eqn:Hpost.
  - rewrite post_run by done. simpl. rewrite appends_with_calls. simpl.
    destruct (appends_effect h (transcript h req) w) as [(_ & _ & ->) _].
    by rewrite app_nil_r.
  - destruct req; try discriminate; simpl; by rewrite app_nil_r.
Qed.

Lemma generation_log_length h (v : json) : length (generation_log h v) <= 1.
Proof. unfold generation_log. destruct (generation_failure h v); simpl; lia. Qed.

Lemma dispatch_log_length h (v : json) : length (dispatch_log h v) <= 2.
Proof.
  unfold dispatch_log. rewrite length_app. simpl.
  pose proof (generation_log_length h v). lia.
Qed.

Lemma transcript_length h req : length (transcript h req) <= 4.
Proof.
  destruct req as [| | | |b]; simpl; try lia.
  - pose proof (dispatch_log_length h testPayment). lia.
  - destruct (announced b); simpl; [|lia].
    destruct (processing b) as [[received [v|]]|]; simpl; try lia.
    pose proof (dispatch_log_length h v). lia.
Qed.

Lemma post_effect h req w :
  is_post req = true ->
  extends w (handle h req w).2 (entries h (ticks w) (transcript h req))
    (outside_calls h req).
Proof.
  intros Hpost. rewrite post_run by done. simpl.
  rewrite appends_with_calls.
  destruct (appends_effect h (transcript h req) w) as [(Hl & Ho & Hc) _].
  unfold extends. simpl. rewrite Hl, Ho, Hc, app_nil_r. done.
Qed.

Lemma dispatch_outcome_cases h (v : json) :
  (dispatch_success h v = true
   /\ exists id, dispatch_outcome h v
                 = (info, "Email alert sent successfully", DMessageId id))
  \/ (dispatch_success h v = false
      /\ exists msg, dispatch_outcome h v
                     = (error, "Failed to send email alert", DText msg)).
Proof.
  unfold dispatch_success, dispatch_outcome, dispatch_mail.
  destruct (generation h v) as [c|msg]; [|right; by eauto].
  destruct (body_text c) as [b|]; simpl; [|right; by eauto].
  destruct (sendMail h _); [left | right]; by eauto.
Qed.

Lemma warnings_dispatch_log h (v : json) t :
  warnings (entries h t (dispatch_log h v)) = 0.
Proof.
  unfold dispatch_log, generation_log.
  destruct (generation_failure h v);
    by destruct (dispatch_outcome_cases h v) as [[_ [id ->]]|[_ [msg ->]]].
Qed.

Lemma dispatches_mails ms : length (List.filter is_dispatch (map Mail ms)) = 0.
Proof. by induction ms. Qed.

Lemma dispatch_calls_shape h (v : json) :
  exists ms,
    dispatch_calls h v = Dispatch v :: generation_calls v ++ map Mail ms
    /\ length (generation_calls v) <= 1
    /\ length ms <= 1
    /\ dispatches (dispatch_calls h v) = 1.
Proof.
  unfold dispatch_calls, generation_calls, dispatches.
  destruct (prompt_of v), (dispatch_mail h v) as [m|];
    [exists [m] | exists [] | exists [m] | exists []];
    simpl; split_and!; (reflexivity || lia).
Qed.

(** ** The webhook endpoint *)

Lemma is_failure_event_names t :
  is_failure_event t = true <->
  t = Some (JStr "payment_intent.payment_failed")
  \/ t = Some (JStr "invoice.payment_failed")
  \/ t = Some (JStr "charge.failed").
Proof.
  destruct t as [[| | |s| |]|]; simpl; try (intuition discriminate).
  rewrite !orb_true_iff, !String.eqb_eq. intuition congruence.
Qed.

(** C1, as the code has it.  The handler always answers.  When processing
    throws, the answer is status 400 with the text "Webhook Error: "
    followed by the error's message, and nothing was dispatched or sent;
    in every other case it is status 200 with [{received: true}],
    whatever the language model and the mail transport did.  Processing
    throws when the body is no JSON, when it is [null], when the event's
    type cannot be converted to a text, and when the type is one of the
    three names and [event.data] or [event.data.object] is [null] or
    absent; [processing] tells. *)
Theorem webhook_acknowledges_unless_processing_fails h b w :
  exists res w' es cs,
    webhook h b w = (Return res, w')
    /\ extends w w' es cs
    /\ (status res = 400 <-> processing_fails b = true)
    /\ if processing_fails b
       then res = webhook_error (rejection b)
            /\ payload res <> TextBody "" /\ cs = []
       else res = acknowledged.
Proof.
  exists (post_answer h (POST_webhook b)), (webhook h b w).2,
    (entries h (ticks w) (transcript h (POST_webhook b))),
    (outside_calls h (POST_webhook b)).
  split; [by rewrite webhook_run|].
  split; [by apply (post_effect h (POST_webhook b))|].
  unfold post_answer, outside_calls, payment, processing_fails.
  destruct (processing b) as [[received paymentData]|msg]; simpl.
  - split; [|done]. split; discriminate.
  - split_and!; done.
Qed.

(** C1 as stated fails: the bodies [{"type":"charge.failed"}] and
    [{"type":{"toString":1}}] parse as JSON, yet for the first reading
    [event.data.object] throws and for the second the conversion of the
    type to a text throws, and the answer is 400. *)
Lemma parsed_body_answered_400 :
  parses (JSON event_without_data) = true
  /\ (webhook offline_host (JSON event_without_data) boot).1
     = Return (res_status 400 (TextBody
         "Webhook Error: Cannot read properties of undefined (reading 'object')"))
  /\ (webhook offline_host (JSON event_without_data) boot).1
     <> Return acknowledged
  /\ parses (JSON event_with_odd_type) = true
  /\ (webhook offline_host (JSON event_with_odd_type) boot).1
     = Return (res_status 400 (TextBody
         "Webhook Error: Cannot convert object to primitive value")).
Proof.
  split_and!; [reflexivity | reflexivity | discriminate | reflexivity
              | reflexivity].
Qed.

(** C6, as the code has it.  For every event the body parses to, with
    what [processing] makes of it.  A failure event that carries a
    payment object gives exactly one warning-level entry and exactly one
    dispatch of that object, with at most one request to the language
    model (exactly one when the payment has the specified shape) and at
    most one message to the mail transport, and the answer 200
    [{received: true}].  An event of another type that processing accepts
    gives no warning and no call, and the same answer.  When processing
    throws, for a type of either kind, the answer is 400 and there is no
    warning and no call. *)
Theorem webhook_dispatches_recognized_failures h event w :
  exists res w' es cs,
    webhook h (JSON event) w = (Return res, w')
    /\ extends w w' es cs
    /\ match processing (JSON event) with
       | Return (_, Some paymentData) =>
           is_failure_event (own event "type") = true
           /\ res = acknowledged /\ status res = 200
           /\ warnings es = 1 /\ dispatches cs = 1
           /\ (exists ms,
                 cs = Dispatch paymentData :: generation_calls paymentData
                        ++ map Mail ms
                 /\ length (generation_calls paymentData) <= 1
                 /\ length ms <= 1)
           /\ (forall p, paymentData = encode p ->
                 generation_calls paymentData
                 = [Generate (completion_request p)])
       | Return (_, None) =>
           is_failure_event (own event "type") = false
           /\ res = acknowledged /\ status res = 200
           /\ warnings es = 0 /\ cs = []
       | Throw msg =>
           res = webhook_error msg /\ status res = 400
           /\ warnings es = 0 /\ cs = []
       end.
Proof.
  exists (post_answer h (POST_webhook (JSON event))),
    (webhook h (JSON event) w).2,
    (entries h (ticks w) (transcript h (POST_webhook (JSON event)))),
    (outside_calls h (POST_webhook (JSON event))).
  split; [by rewrite webhook_run|].
  split; [by apply (post_effect h (POST_webhook (JSON event)))|].
  unfold post_answer, transcript, outside_calls, payment, processing_fails,
    rejection, announced, processing.
  destruct (read event "type") as [type|msg] eqn:Hr; simpl; [|done].
  apply read_own in Hr as ->.
  destruct (Value.ToString (own event "type")) as [received|msg]; simpl;
    [|done].
  destruct (is_failure_event (own event "type")) eqn:He; simpl; [|done].
  destruct (payment_of event) as [paymentData|msg]; simpl; [|done].
  destruct (dispatch_calls_shape h paymentData)
    as (ms & Hcs & Hgs & Hms & Hone).
  split_and!; try done.
  - unfold warnings. simpl. f_equal. apply warnings_dispatch_log.
  - by exists ms.
  - intros p ->. apply generation_calls_encode.
Qed.

(** The example event of the specification is dispatched once. *)
Lemma webhook_dispatches_example_event :
  exists res w' es cs,
    webhook offline_host (JSON example_event) boot = (Return res, w')
    /\ extends boot w' es cs
    /\ res = acknowledged /\ status res = 200
    /\ warnings es = 1 /\ dispatches cs = 1.
Proof.
  destruct (webhook_dispatches_recognized_failures offline_host example_event
              boot) as (res & w' & es & cs & Hrun & Hext & Hcase).
  exists res, w', es, cs.
  destruct Hcase as (_ & Hres & Hstatus & Hes & Hcs & _).
  split_and!; assumption.
Defined.

(** C6 as stated fails: [{"type":"payment_intent.payment_failed",
    "data":{}}] has a recognized type, yet the answer is 400, no warning is
    logged and nothing is dispatched; and [{"type":{"toString":1}}] has
    no recognized type, yet the answer is 400 too. *)
Lemma recognized_event_without_object_rejected :
  is_failure_event (own event_without_object "type") = true
  /\ (webhook offline_host (JSON event_without_object) boot).1
     = Return (res_status 400 (TextBody
         "Webhook Error: Cannot read properties of undefined (reading 'amount')"))
  /\ List.filter is_warning
       (logs (webhook offline_host (JSON event_without_object) boot).2)
     = []
  /\ calls (webhook offline_host (JSON event_without_object) boot).2 = []
  /\ is_failure_event (own event_with_odd_type "type") = false
  /\ (webhook offline_host (JSON event_with_odd_type) boot).1
     <> Return acknowledged.
Proof. split_and!; try reflexivity. discriminate. Qed.

(** ** What a request does to the buffer *)

(** Pushing entries only ever drops entries from the front: at most as
    many as are pushed. *)
Lemma pushes_window (l es : list LogEntry) :
  exists k,
    k <= length es /\ k <= length (l ++ es)
    /\ pushes l es = drop k (l ++ es).
Proof.
  induction es as [|e es (k & Hk & Hlen & IH)] using rev_ind.
  - exists 0. rewrite app_nil_r. simpl. split_and!; [lia | lia | done].
  - rewrite pushes_snoc, IH, app_assoc.
    destruct (push_shift_cases (drop k (l ++ es)) e)
      as [->|(oldest & rest & Hdrop & ->)].
    + exists k. rewrite !length_app in *. simpl.
      split_and!; [lia | lia |].
      by rewrite (drop_app_le (l ++ es)) by (rewrite length_app; lia).
    + assert (k < length (l ++ es)) as Hlt.
      { destruct (decide (k < length (l ++ es))) as [|Hge]; [done|].
        rewrite drop_ge in Hdrop by lia. done. }
      exists (S k). rewrite !length_app in *. simpl.
      split_and!; [lia | lia |].
      rewrite (drop_app_le (l ++ es)) by (rewrite length_app; lia).
      f_equal. replace (S k) with (k + 1) by lia.
      by rewrite <- drop_drop, Hdrop.
Qed.

(** C10. A call of [addLog] puts exactly one new entry at the end of the
    buffer; the entries before it are the previous ones, all of them or
    all but the oldest, unchanged and in the same order.  No request
    handler changes the buffer in any other way: run from its first
    statement to its response, it pushes the entries of its [addLog]
    calls, at most four, and what it leaves is the old
    buffer followed by these entries, without the first [k] of them, with
    [k] at most the number of entries pushed.  So every old entry that
    is still there is as it was, in its place after the older ones. *)
Theorem addLog_appends_one_and_keeps_the_rest h lv msg d w :
  let e := {| timestamp := clock h (ticks w); level := lv; message := msg;
              data := d |} in
  let w' := (addLog h lv msg d w).2 in
  (logs w' = logs w ++ [e]
   \/ exists oldest rest, logs w = oldest :: rest /\ logs w' = rest ++ [e])
  /\ (forall req w0,
        let new := entries h (ticks w0) (transcript h req) in
        length new <= 4
        /\ exists k,
             k <= length new
             /\ logs (handle h req w0).2 = drop k (logs w0 ++ new)).
Proof.
  intros e w'. split.
  - subst w'. simpl. apply push_shift_cases.
  - intros req w0 new. subst new. split.
    + rewrite entries_length. apply transcript_length.
    + rewrite handle_logs.
      destruct (pushes_window (logs w0)
                  (entries h (ticks w0) (transcript h req)))
        as (k & Hk & _ & Hpush).
      by exists k.
Qed.

(** ** The generator *)

Lemma fallback_is_AlertContent p :
  as_AlertContent (content_value (fallback p)) = Some (fallback p).
Proof. reflexivity. Qed.

Lemma failed_generation_returns_fallback h p w :
  generation_error (create h (completion_request p)) <> None ->
  returns_AlertContent h p w.
Proof.
  intros Herr. unfold returns_AlertContent. rewrite generate_run.
  eexists _, _. split; [reflexivity|]. unfold generated.
  destruct (create h (completion_request p)); try done; by eexists.
Qed.

(** C4, as the code has it.  On a payment of the specified shape the
    generator never throws.  When the call
    of the language model fails in any way (it rejects, the completion has
    no content, the content is no JSON) the result is the deterministic
    fallback, which is an AlertContent, and the failure is logged at level
    error; when the returned text parses, the result is the parsed value
    as it is, without a check of its shape. *)
Theorem generateEmailContent_never_throws h p w :
  exists w', generateEmailContent h p w = (Return (generated h p), w')
    /\ calls w' = calls w ++ [Generate (completion_request p)]
    /\ match create h (completion_request p) with
       | Parsed v => generated h p = v /\ logs w' = logs w
       | Rejected msg | NoContent msg | Unparseable msg =>
           generated h p = content_value (fallback p)
           /\ returns_AlertContent h p w
           /\ logs w' = push_shift (logs w)
                {| timestamp := clock h (ticks w); level := error;
                   message := "Failed to generate email content with OpenAI";
                   data := DText msg |}
       end.
Proof.
  rewrite generate_run. eexists. split; [reflexivity|].
  pose proof (failed_generation_returns_fallback h p w) as Hfb.
  unfold generated in *.
  destruct (create h (completion_request p)); simpl in *;
    (split; [done|]); try done; (split; [done|]); (split; [|done]);
    by apply Hfb.
Qed.

(** C4 as stated fails: when the model's text parses to an object without
    a body, the generator returns that object, which is no AlertContent;
    the dispatcher then fails to build the message and nothing is sent. *)
Lemma generator_returns_bodyless_content :
  ~ returns_AlertContent bodyless_host (bare_payment 500) boot
  /\ (generateEmailContent bodyless_host (bare_payment 500) boot).1
     = Return (JObj [("subject", JStr "Payment failed")])
  /\ (sendEmailAlert bodyless_host (bare_payment 500) boot).1 = Return false
  /\ mails (calls (sendEmailAlert bodyless_host (bare_payment 500) boot).2)
     = [].
Proof.
  split_and!; try reflexivity.
  intros (v & w' & Hrun & Hv). rewrite generate_run in Hrun.
  injection Hrun as <- _. by destruct Hv.
Qed.

(** C2, as the code has it.  For a payment without customer, failure
    message, failure code and payment method details, the fallback body
    shows "Unknown" for the customer's name, the failure code and the
    payment method, "Not provided" for the customer's email, and
    "No details provided" for the failure message; the subject shows
    "Unknown Customer".  The generator returns this content whenever the
    language model fails, and never throws. *)
Theorem fallback_placeholders p :
  lacks_optional_fields p ->
  fallback_subject p
    = "🚨 Payment Failed - $" +:+ amount_text p +:+ " from Unknown Customer"
  /\ fallback_body p = unlines [
       "A payment has failed in your Stripe account.";
       "";
       "Details:";
       "- Customer: Unknown (Not provided)";
       "- Amount: $" +:+ amount_text p +:+ " " +:+ currency_text p;
       "- Failure Reason: No details provided";
       "- Failure Code: Unknown";
       "- Payment Method: Unknown";
       "";
       "Next Steps:";
       "1. Review the failure reason above";
       "2. Contact the customer if needed";
       "3. Check your Stripe dashboard for more details";
       "";
       "This is an automated alert from your Stripe monitoring system."
     ]
  /\ forall h w,
       generation_error (create h (completion_request p)) <> None ->
       (generateEmailContent h p w).1 = Return (content_value (fallback p)).
Proof.
  intros (Hc & Hm & Hf & Hd).
  unfold fallback_subject, fallback_body, subject_customer, customer_name,
    customer_email, reason_text, code_text, method_text.
  rewrite Hc, Hm, Hf, Hd. split_and!; [reflexivity | reflexivity |].
  intros h w Herr. rewrite generate_run. simpl. unfold generated.
  by destruct (create h (completion_request p)).
Qed.

(** A payment of 500 minor units and nothing else, on a host whose
    language model is unreachable. *)
Lemma fallback_placeholders_bare_payment :
  lacks_optional_fields (bare_payment 500)
  /\ fallback_subject (bare_payment 500)
     = "🚨 Payment Failed - $5.00 from Unknown Customer"
  /\ (generateEmailContent offline_host (bare_payment 500) boot).1
     = Return (content_value (fallback (bare_payment 500))).
Proof.
  assert (lacks_optional_fields (bare_payment 500)) as H
    by (repeat split; reflexivity).
  split; [exact H|].
  destruct (fallback_placeholders (bare_payment 500) H) as (Hs & _ & Hg).
  split; [exact Hs|]. apply Hg. discriminate.
Defined.

(** C2 as stated fails: the place of a missing failure message holds
    "No details provided", which is neither of the two placeholders the
    claim names. *)
Lemma missing_failure_message_placeholder :
  lacks_optional_fields (bare_payment 500)
  /\ reason_text (bare_payment 500) = "No details provided"
  /\ ~ placeholder (reason_text (bare_payment 500)).
Proof.
  split_and!; [repeat split; reflexivity | reflexivity |].
  intros [H|H]; discriminate H.
Qed.

(** ** The dispatcher's message *)

Lemma replace_newlines_app a b :
  replace_newlines (a +:+ b) = replace_newlines a +:+ replace_newlines b.
Proof.
  induction a as [|c a IH]; simpl; [done|].
  destruct (Ascii.eqb c "010"); simpl; by rewrite IH.
Qed.

Lemma replace_newlines_LF : replace_newlines LF = "<br>".
Proof. reflexivity. Qed.

(** Splitting at a line feed: the markup takes its place. *)
Lemma replace_newlines_line a b :
  replace_newlines (a +:+ LF +:+ b)
  = replace_newlines a +:+ "<br>" +:+ replace_newlines b.
Proof. by rewrite !replace_newlines_app. Qed.

(** A text without line feeds is kept as it is. *)
Lemma replace_newlines_none s :
  (forall c, In c (list_ascii_of_string s) -> c <> "010"%char) ->
  replace_newlines s = s.
Proof.
  induction s as [|c s IH]; simpl; intros Hs; [done|].
  destruct (Ascii.eqb c "010") eqn:Hc.
  - apply Ascii.eqb_eq in Hc. exfalso. apply (Hs c); auto.
  - rewrite IH; [done|]. intros c' Hc'. apply Hs. auto.
Qed.

(** No line feed is left in the HTML body. *)
Lemma replace_newlines_complete s c :
  In c (list_ascii_of_string (replace_newlines s)) -> c <> "010"%char.
Proof.
  induction s as [|c' s IH]; simpl; [done|].
  destruct (Ascii.eqb c' "010") eqn:Hc; simpl.
  - intros [<-|[<-|[<-|[<-|H]]]]; try discriminate. by apply IH.
  - intros [<-|H]; [|by apply IH]. by apply Ascii.eqb_neq in Hc.
Qed.

Lemma mails_map_Mail ms : mails (map Mail ms) = ms.
Proof.
  induction ms as [|m ms IH]; [done|].
  change (m :: mails (map Mail ms) = m :: ms). by rewrite IH.
Qed.

Lemma submitted_spec h p w :
  submitted h p w =
    match body_text (generated h p) with
    | Some b => [mail_for h (generated h p) b]
    | None => []
    end.
Proof.
  unfold submitted.
  destruct (sendEmailAlert_spec h p w)
    as (success & w' & es & ms & -> & (_ & _ & Hcalls) & _ & Hms).
  simpl. rewrite Hcalls, drop_app_length.
  change (mails (map Mail ms) = match body_text (generated h p) with
                                | Some b => [mail_for h (generated h p) b]
                                | None => []
                                end).
  rewrite mails_map_Mail.
  by destruct (body_text _); destruct Hms.
Qed.

(** C5, as the code has it.  Every message handed to the transport has
    the generated content's subject as its subject, the content's body
    (a string) as its text, and that body with every line feed replaced
    by [<br>] as its HTML.  When [ALERT_EMAIL] is set and not empty, it is
    both the sender and the recipient; otherwise the sender is
    [stripe-monitor@yourdomain.com] and the recipient
    [admin@yourdomain.com]. *)
Theorem dispatched_mail_fields h p w m :
  In m (submitted h p w) ->
  mail_subject m = own (generated h p) "subject"
  /\ text m = own (generated h p) "body"
  /\ (exists b, text m = Some (JStr b) /\ html m = replace_newlines b)
  /\ if configured (env h) "ALERT_EMAIL"
     then env h !! "ALERT_EMAIL" = Some (from m) /\ to m = from m
     else from m = "stripe-monitor@yourdomain.com"
          /\ to m = "admin@yourdomain.com".
Proof.
  rewrite submitted_spec. unfold body_text.
  destruct (own (generated h p) "body") as [[]|] eqn:Hb; simpl;
    try done.
  intros [<-|[]]. simpl. split_and!; [done | done | by eexists |].
  unfold configured, env_or, or_else.
  by destruct (env h !! "ALERT_EMAIL") as [[|c a]|].
Qed.

(** The message for the fallback content on a host without
    configuration. *)
Lemma dispatched_mail_fields_offline :
  In (mail_for offline_host (generated offline_host (bare_payment 500))
        (fallback_body (bare_payment 500)))
     (submitted offline_host (bare_payment 500) boot)
  /\ from (mail_for offline_host (generated offline_host (bare_payment 500))
             (fallback_body (bare_payment 500)))
     = "stripe-monitor@yourdomain.com".
Proof.
  assert (In (mail_for offline_host
                (generated offline_host (bare_payment 500))
                (fallback_body (bare_payment 500)))
             (submitted offline_host (bare_payment 500) boot)) as H
    by (vm_compute; left; reflexivity).
  split; [exact H|].
  destruct (dispatched_mail_fields offline_host (bare_payment 500) boot _ H)
    as (_ & _ & _ & Haddr).
  apply Haddr.
Defined.

(** C5 as stated fails: with no [ALERT_EMAIL] in the environment the
    message goes from one built-in address to another one; no single
    address serves for both. *)
Lemma unconfigured_sender_is_not_recipient :
  env offline_host !! "ALERT_EMAIL" = None
  /\ exists m,
       submitted offline_host (bare_payment 500) boot = [m]
       /\ from m = "stripe-monitor@yourdomain.com"
       /\ to m = "admin@yourdomain.com"
       /\ from m <> to m.
Proof.
  split; [reflexivity|]. eexists. split; [vm_compute; reflexivity|].
  split_and!; [reflexivity | reflexivity | discriminate].
Qed.

(** ** Amount formatting *)

Lemma digits_digit k :
  (0 <= k < 10)%Z -> Number.digits k = String (digit k) "".
Proof.
  intros Hk.
  assert (k = 0 \/ k = 1 \/ k = 2 \/ k = 3 \/ k = 4 \/ k = 5 \/ k = 6
          \/ k = 7 \/ k = 8 \/ k = 9)%Z as Hcases by lia.
  repeat (destruct Hcases as [->|Hcases]; [reflexivity|]).
  by subst.
Qed.

(** Exactly two digits follow the decimal point. *)
Lemma two_places_shape n :
  (0 <= n)%Z ->
  Number.two_places n
  = Number.digits (n / 100) +:+ "."
    +:+ String (digit (n mod 100 / 10)) (String (digit (n mod 10)) "").
Proof.
  intros Hn. unfold Number.two_places.
  rewrite (digits_digit (n mod 100 / 10)), (digits_digit (n mod 10)).
  - reflexivity.
  - apply Z.mod_pos_bound. lia.
  - pose proof (Z.mod_pos_bound n 100 ltac:(lia)).
    split; [apply Z.div_pos; lia | apply Z.div_lt_upper_bound; lia].
Qed.

(** Below [10^21] a finite number is printed in fixed notation with two
    fraction digits: those of the nearest multiple of a hundredth. *)
Lemma toFixed2_shape x s m e :
  Prim2SF x = S754_finite s m e ->
  PrimFloat.leb 1e21 (PrimFloat.abs x) = false ->
  exists n, (0 <= n)%Z
    /\ Number.toFixed2 x
       = (if s then "-" else "") +:+ Number.digits (n / 100) +:+ "."
         +:+ String (digit (n mod 100 / 10)) (String (digit (n mod 10)) "").
Proof.
  intros Hx Hsmall. unfold Number.toFixed2. rewrite Hx, Hsmall.
  exists (Number.hundredths m e). split.
  - unfold Number.hundredths. destruct (0 <=? e)%Z eqn:He.
    + apply Z.leb_le in He.
      pose proof (Z.pow_nonneg 2 e ltac:(lia)). nia.
    + apply Z.div_pos; [|apply Z.pow_pos_nonneg; lia].
      assert (0 <= 2 ^ (- e))%Z by (apply Z.pow_nonneg; lia). lia.
  - rewrite two_places_shape; [done|].
    unfold Number.hundredths. destruct (0 <=? e)%Z eqn:He.
    + apply Z.leb_le in He.
      pose proof (Z.pow_nonneg 2 e ltac:(lia)). nia.
    + apply Z.div_pos; [|apply Z.pow_pos_nonneg; lia].
      assert (0 <= 2 ^ (- e))%Z by (apply Z.pow_nonneg; lia). lia.
Qed.

Lemma prints_exactly_spec n :
  prints_exactly n = true ->
  amount_text (bare_payment (minor_units n)) = Number.two_places n.
Proof.
  unfold prints_exactly, amount_text, Number.toFixed2. simpl.
  intros [Hsmall Hn]%andb_true_iff. apply negb_true_iff in Hsmall.
  rewrite Hsmall.
  destruct (Prim2SF (minor_units n / 100)) as [s|s| |[] m e]; try done.
  - by apply Z.eqb_eq in Hn as ->.
  - by apply Z.eqb_eq in Hn as ->.
Qed.

Lemma all_print_exactly_spec fuel n k :
  all_print_exactly fuel n = true ->
  (n <= k < n + Z.of_nat fuel)%Z -> prints_exactly k = true.
Proof.
  revert n. induction fuel as [|fuel IH]; intros n Hall Hk; [lia|].
  simpl in Hall. apply andb_true_iff in Hall as [Hn Hrest].
  destruct (decide (k = n)) as [->|Hne]; [done|].
  apply (IH (n + 1)%Z); [done | lia].
Qed.

Lemma amounts_to_100_dollars_print_exactly :
  all_print_exactly (Z.to_nat 10000) 0 = true.
Proof. vm_compute. reflexivity. Qed.

(** The number of hundredths shown is the nearest one, the larger one on
    a tie. *)
Lemma hundredths_nearest m e :
  (0 <= Number.hundredths m e
   /\ 2 * Number.hundredths m e * 2 ^ Z.max 0 (- e) - 2 ^ Z.max 0 (- e)
      <= 200 * Zpos m * 2 ^ Z.max 0 e
      < 2 * Number.hundredths m e * 2 ^ Z.max 0 (- e) + 2 ^ Z.max 0 (- e))%Z.
Proof.
  unfold Number.hundredths. destruct (0 <=? e)%Z eqn:He.
  - apply Z.leb_le in He.
    rewrite (Z.max_l 0 (- e)), (Z.max_r 0 e) by lia.
    pose proof (Z.pow_pos_nonneg 2 e ltac:(lia) He) as Hpow.
    change (2 ^ 0)%Z with 1%Z.
    split_and!; [nia | lia | lia].
  - apply Z.leb_gt in He.
    rewrite (Z.max_r 0 (- e)), (Z.max_l 0 e) by lia.
    change (2 ^ 0)%Z with 1%Z.
    replace (1 - e)%Z with (Z.succ (- e)) by lia.
    rewrite Z.pow_succ_r by lia.
    pose proof (Z.pow_pos_nonneg 2 (- e) ltac:(lia) ltac:(lia)) as Hpow.
    set (D := (2 ^ (- e))%Z) in *.
    pose proof (Z.mul_div_le (200 * Zpos m + D) (2 * D) ltac:(lia)) as Hle.
    pose proof (Z.mul_succ_div_gt (200 * Zpos m + D) (2 * D) ltac:(lia))
      as Hgt.
    set (n := ((200 * Zpos m + D) / (2 * D))%Z) in *.
    assert (0 <= n)%Z by (subst n; apply Z.div_pos; lia).
    split_and!; [done | nia | nia].
Qed.

(** A text in fixed notation with two fraction digits has a point before
    its last two characters. *)
Lemma two_fraction_digits_point s :
  two_fraction_digits s ->
  String.get (String.length s - 3) s = Some "."%char.
Proof.
  intros (whole & d1 & d2 & -> & _).
  assert (forall t, String.length (whole +:+ t)
                    = String.length whole + String.length t) as Hlen.
  { intros t. induction whole as [|c whole IH]; simpl; [done|].
    change (S (String.length (whole +:+ t))
            = S (String.length whole + String.length t)).
    by rewrite IH. }
  rewrite Hlen. simpl.
  replace (String.length whole + 3 - 3) with (String.length whole) by lia.
  induction whole as [|c whole IH]; [done|]. apply IH.
  intros t. specialize (Hlen t). simpl in Hlen.
  change (S (String.length (whole +:+ t))
          = S (String.length whole + String.length t)) in Hlen.
  lia.
Qed.

(** C7, as the code has it.  The amount shown is the amount divided by
    100, printed by [toFixed(2)]: 2999 is shown as "$29.99" and 0 as
    "$0.00", and every amount from 0 to 9999 minor units as its quotient
    by 100 followed by the two digits of its remainder.  In general, with
    [x] the quotient: when [x] is finite and below [10^21] in magnitude,
    the text is the sign, the nearest number of hundredths (the larger
    one on a tie) and exactly two fraction digits; when [x] is [10^21] or
    more, the text is that of [Number::toString], in exponent notation
    ([2^77] minor units are shown as "$1.5111572745182865e+21");
    when [x] is NaN (the amount is absent) or infinite, the text is "NaN"
    or "Infinity". *)
Theorem amount_text_two_fraction_digits :
  "$" +:+ amount_text (bare_payment 2999) = "$29.99"
  /\ "$" +:+ amount_text (bare_payment 0) = "$0.00"
  /\ fallback_subject (bare_payment 2999)
     = "🚨 Payment Failed - $29.99 from Unknown Customer"
  /\ amount_text (bare_payment 151115727451828646838272)
     = "1.5111572745182865e+21"
  /\ (forall n, (0 <= n < 10000)%Z ->
        amount_text (bare_payment (minor_units n))
        = Number.digits (n / 100) +:+ "."
          +:+ String (digit (n mod 100 / 10)) (String (digit (n mod 10)) ""))
  /\ (forall p,
        let x := (ToNumber (amount p) / 100)%float in
        match Prim2SF x with
        | S754_nan => amount_text p = "NaN"
        | S754_infinity s =>
            amount_text p = (if s then "-Infinity" else "Infinity")
        | S754_zero _ => amount_text p = "0.00"
        | S754_finite s m e =>
            if PrimFloat.leb 1e21 (PrimFloat.abs x)
            then amount_text p = Number.toString x
            else exists n,
              amount_text p
              = (if s then "-" else "") +:+ Number.digits (n / 100) +:+ "."
                +:+ String (digit (n mod 100 / 10))
                      (String (digit (n mod 10)) "")
              /\ (0 <= n
                  /\ 2 * n * 2 ^ Z.max 0 (- e) - 2 ^ Z.max 0 (- e)
                     <= 200 * Zpos m * 2 ^ Z.max 0 e
                     < 2 * n * 2 ^ Z.max 0 (- e) + 2 ^ Z.max 0 (- e))%Z
        end).
Proof.
  split_and!; try reflexivity.
  - intros n Hn.
    rewrite prints_exactly_spec; [apply two_places_shape; lia|].
    apply (all_print_exactly_spec (Z.to_nat 10000) 0);
      [exact amounts_to_100_dollars_print_exactly | lia].
  - intros p x. unfold amount_text, Number.toFixed2, Number.toString.
    fold x. destruct (Prim2SF x) as [s|s| |s m e]; try reflexivity.
    destruct (PrimFloat.leb 1e21 (PrimFloat.abs x)); [reflexivity|].
    pose proof (hundredths_nearest m e) as Hn.
    exists (Number.hundredths m e). split; [|exact Hn].
    rewrite two_places_shape; [done | apply Hn].
Qed.

(** C7 as stated fails: an amount of [2^77] minor units is shown in
    exponent notation, and a payment without an amount is shown with
    "NaN"; neither text has two fraction digits. *)
Lemma huge_amount_in_exponent_notation :
  amount_text (bare_payment 151115727451828646838272)
  = "1.5111572745182865e+21"
  /\ ~ two_fraction_digits
         (amount_text (bare_payment 151115727451828646838272))
  /\ amount_text payment_without_amount = "NaN"
  /\ ~ two_fraction_digits (amount_text payment_without_amount).
Proof.
  assert (amount_text (bare_payment 151115727451828646838272)
          = "1.5111572745182865e+21") as Hhuge by (vm_compute; reflexivity).
  assert (amount_text payment_without_amount = "NaN") as Hnan
    by (vm_compute; reflexivity).
  split_and!; [done | | done |].
  - rewrite Hhuge. intros H%two_fraction_digits_point. discriminate H.
  - rewrite Hnan. intros H%two_fraction_digits_point. discriminate H.
Qed.

(** ** The test endpoint *)

(** C8. Whatever the language model and the mail transport do, the
    answer to [POST /test] is the JSON object with a [success] boolean,
    the matching message and the synthetic payment echoed back: amount
    2999, currency "usd", failure code "card_declined", the canned decline
    message, the test customer and payment method "card".  [success] tells
    whether the transport accepted the message. *)
Theorem test_echoes_testPayment h w :
  exists success w',
    test h w =
      (Return (res_json (TestBody success
         (if success then "Test email sent successfully!"
          else "Test email failed to send")
         testPayment)), w')
    /\ testPayment =
         {| amount := Some 2999%float;
            currency := Some "usd";
            failure_code := Some "card_declined";
            failure_message := Some "Your card was declined.";
            customer := Some {| name := Some "Test Customer";
                                email := Some "test@example.com" |};
            payment_method_details := Some {| type := Some "card" |} |}
    /\ (success = true <->
        exists b id,
          body_text (generated h testPayment) = Some b
          /\ sendMail h (mail_for h (generated h testPayment) b) = Sent id).
Proof.
  unfold test, bind at 1, try_catch, bind. simpl.
  set (w1 := {| logs := _ |}).
  destruct (sendEmailAlert_spec h testPayment w1)
    as (success & w' & es & ms & -> & _ & _ & Hms).
  exists success, w'. split_and!; [done | done |].
  destruct (body_text (generated h testPayment)) as [b|].
  - destruct Hms as [_ ->]. split.
    + intros [id Hid]. by exists b, id.
    + intros (b' & id & [= <-] & Hid). by exists id.
  - destruct Hms as [_ ->]. split; [done|]. by intros (b & id & ? & _).
Qed.

(** ** The health endpoint *)

Lemma configured_non_empty e key :
  configured e key = true <-> non_empty e key.
Proof.
  unfold configured, non_empty. destruct (e !! key) as [[|c v]|].
  - split; [done|]. by intros (v & [= <-] & Hv).
  - split; [|done]. intros _. by eexists.
  - split; [done|]. by intros (v & ? & _).
Qed.

Lemma configured_insert e key v :
  configured (<[key:=v]> e) key = negb (String.eqb v "").
Proof. unfold configured. rewrite lookup_insert_eq. by destruct v. Qed.

Lemma configured_delete e key : configured (delete key e) key = false.
Proof. unfold configured. by rewrite lookup_delete_eq. Qed.

(** C9. The three booleans of [GET /health] say exactly whether
    [STRIPE_SECRET_KEY], [OPENAI_API_KEY] and [ALERT_EMAIL] are set to a
    non-empty value; nothing else of the host is consulted for them. *)
Theorem health_reports_configuration h w :
  exists stripe_configured openai_configured email_configured w',
    health h w =
      (Return (res_json (HealthBody "healthy" (clock h (ticks w))
         (uptime h (ticks w))
         stripe_configured openai_configured email_configured)), w')
    /\ (stripe_configured = true <-> non_empty (env h) "STRIPE_SECRET_KEY")
    /\ (openai_configured = true <-> non_empty (env h) "OPENAI_API_KEY")
    /\ (email_configured = true <-> non_empty (env h) "ALERT_EMAIL")
    /\ logs w' = logs w /\ calls w' = calls w.
Proof.
  eexists _, _, _, _. split; [reflexivity|].
  split_and!; try apply configured_non_empty; reflexivity.
Qed.

(** ** Further properties *)

(** In every state the process reaches, from the listen callback through
    any sequence of requests, the buffer holds at most 100 entries: they
    are the last 100 of all the entries logged since the start, each of
    which went to the console as well. *)
Theorem buffer_bounded_in_every_reachable_state h reqs :
  length (logs (run h reqs boot).2) <= 100
  /\ exists es,
       logs (run h reqs boot).2 = drop (length es - 100) es
       /\ map line_of es = stdout (run h reqs boot).2.
Proof.
  destruct (appending_run h reqs boot) as (es & cs & Hlogs & Hout & _).
  rewrite Hlogs. split; [apply pushes_length; simpl; lia|].
  exists es. split; [|by rewrite Hout].
  rewrite pushes_drop by (simpl; lia). done.
Qed.

(** The dispatcher never throws.  It returns [true] exactly when the
    generated content has a string body and the transport accepts the
    message built from it; it hands the transport that one message, or
    none when the content has no string body. *)
Theorem sendEmailAlert_returns h p w :
  exists success w',
    sendEmailAlert h p w = (Return success, w')
    /\ (success = true <->
        exists b id,
          body_text (generated h p) = Some b
          /\ sendMail h (mail_for h (generated h p) b) = Sent id)
    /\ submitted h p w
       = match body_text (generated h p) with
         | Some b => [mail_for h (generated h p) b]
         | None => []
         end.
Proof.
  pose proof (submitted_spec h p w) as Hsub.
  destruct (sendEmailAlert_spec h p w)
    as (success & w' & es & ms & Hrun & _ & _ & Hms).
  exists success, w'. split_and!; [done | | done].
  destruct (body_text (generated h p)) as [b|].
  - destruct Hms as [_ ->]. split.
    + intros [id Hid]. by exists b, id.
    + intros (b' & id & [= <-] & Hid). by exists id.
  - destruct Hms as [_ ->]. split; [done|]. by intros (b & id & ? & _).
Qed.

(** [GET /logs] reports the number of entries held and returns the last
    50 of them (all of them when there are fewer), in order, leaving the
    state as it was. *)
Theorem get_logs_returns_last_50 w :
  exists recent,
    get_logs w = (Return (res_json (LogsBody (length (logs w)) recent)), w)
    /\ length recent = min 50 (length (logs w))
    /\ recent `suffix_of` logs w.
Proof.
  exists (slice_last 50 (logs w)). unfold slice_last.
  split_and!; [done | rewrite length_drop; lia | apply suffix_drop].
Qed.

(** ** What every request does *)

(** No exception leaves a handler.  Whatever the requests and whatever the
    language model and the mail transport do, every request is answered,
    in order: with status 400 when it is a webhook request whose
    processing throws, with status 200 otherwise; status 500 never
    occurs. *)
Theorem every_request_is_answered h reqs w :
  exists rs w',
    serve h reqs w = (Return rs, w')
    /\ map status rs = map expected_status reqs.
Proof.
  revert w. induction reqs as [|req reqs IH]; intros w; simpl.
  - by exists [], w.
  - destruct (handle_status h req w) as (res & w1 & Hrun & Hstatus).
    destruct (IH w1) as (rs & w' & Hrest & Hall).
    exists (res :: rs), w'. unfold bind. rewrite Hrun, Hrest. simpl.
    by rewrite Hstatus, Hall.
Qed.

(** The log entries, the console lines, the calls and the clock readings
    of one request, run from its first statement to its response, are
    those of its transcript: none for the three [GET] routes (the health
    check reads the clock once), and for the two [POST] routes the entries
    listed by [transcript], stamped with consecutive clock readings. *)
Theorem request_transcript h req w :
  logs (handle h req w).2
    = pushes (logs w) (entries h (ticks w) (transcript h req))
  /\ stdout (handle h req w).2
     = stdout w ++ map line_of (entries h (ticks w) (transcript h req))
  /\ calls (handle h req w).2 = calls w ++ outside_calls h req
  /\ ticks (handle h req w).2
     = ticks w + length (transcript h req)
       + match req with GET_health => 1 | _ => 0 end.
Proof.
  destruct (is_post req) eqn:Hpost.
  - rewrite post_run by done. simpl. rewrite appends_with_calls.
    destruct (appends_effect h (transcript h req) w)
      as [(Hlogs & Hout & _) Hticks].
    simpl. rewrite Hlogs, Hout, Hticks.
    destruct (appends_effect h (transcript h req) w) as [(_ & _ & Hc) _].
    rewrite Hc, app_nil_r. split_and!; try done.
    destruct req; try discriminate; lia.
  - destruct req; try discriminate; simpl;
      rewrite ?app_nil_r; split_and!; try done; lia.
Qed.

(** A request, run from its first statement to its response, appends at
    most four entries, so it evicts at most the four oldest ones: from a
    buffer within its bound, what it leaves is the old buffer without its
    first [k] entries followed by the new entries, where [k] is the
    number by which the two together exceed 100. *)
Theorem request_evicts_at_most_four h req w :
  length (logs w) <= 100 ->
  let new := entries h (ticks w) (transcript h req) in
  let k := length (logs w) + length new - 100 in
  length new <= 4 /\ k <= 4
  /\ logs (handle h req w).2 = drop k (logs w) ++ new.
Proof.
  intros Hw new k. pose proof (handle_logs h req w) as Hlogs.
  pose proof (transcript_length h req) as Hlen.
  assert (length new <= 4) as Hnew
    by (subst new; rewrite entries_length; done).
  split_and!; [done | lia |].
  rewrite Hlogs, pushes_drop, length_app by done.
  apply drop_app_le. lia.
Qed.

(** From a full buffer: the test request, on a host whose language model
    cannot be reached, appends three entries and evicts the three
    oldest. *)
Lemma request_evicts_at_most_four_witness :
  length (logs full_buffer) = 100
  /\ length (logs full_buffer) <= 100
  /\ length (entries offline_host (ticks full_buffer)
               (transcript offline_host POST_test)) = 3
  /\ logs (handle offline_host POST_test full_buffer).2
     = drop 3 (logs full_buffer)
       ++ entries offline_host (ticks full_buffer)
            (transcript offline_host POST_test).
Proof.
  assert (length (logs full_buffer) <= 100) as H by (vm_compute; lia).
  split; [vm_compute; reflexivity|]. split; [exact H|].
  split; [vm_compute; reflexivity|].
  exact (proj2 (proj2
    (request_evicts_at_most_four offline_host POST_test full_buffer H))).
Defined.

(** ** The last log entry tells the outcome *)

Lemma last_push_shift l e : last (push_shift l e) = Some e.
Proof.
  destruct (push_shift_cases l e) as [->|(x & rest & _ & ->)];
    apply last_snoc.
Qed.

Lemma entries_snoc h t cs c :
  entries h t (cs ++ [c])
  = entries h t cs ++ [stamped h (t + length cs) c].
Proof.
  revert t. induction cs as [|[[lv msg] d] cs IH]; intros t; simpl.
  - destruct c as [[lv msg] d]. by rewrite Nat.add_0_r.
  - by rewrite IH, Nat.add_succ_r.
Qed.

Lemma last_logged h req w front c :
  transcript h req = front ++ [c] ->
  last (logs (handle h req w).2)
  = Some (stamped h (ticks w + length front) c).
Proof.
  intros Ht. rewrite handle_logs, Ht, entries_snoc, pushes_snoc.
  apply last_push_shift.
Qed.

Lemma last_drop_lt {A} (l : list A) k :
  k < length l -> last (drop k l) = last l.
Proof.
  intros Hk. rewrite !last_lookup, lookup_drop, length_drop. f_equal. lia.
Qed.

(** Every dispatch ends with a log entry that tells how it went, for
    whatever value the dispatcher is called with.  When content was
    generated, it has a string body and the transport accepts the
    message, [sendEmailAlert] returns [true] and the entry is the info
    entry "Email alert sent successfully" with the message id the
    transport returned.  Otherwise it returns [false] and the entry is
    the error entry "Failed to send email alert" with the message of the
    error: the transport's, or that of the TypeError for content without
    a string body, or that of the exception the generator threw. *)
Theorem dispatch_result_is_the_last_entry h (failedPayment : json) w :
  exists success e,
    sendEmailAlert h failedPayment w
    = (Return success, (sendEmailAlert h failedPayment w).2)
    /\ last (logs (sendEmailAlert h failedPayment w).2) = Some e
    /\ (success = true <-> level e = info)
    /\ match generation h failedPayment with
       | Return v =>
           match body_text v with
           | Some b =>
               match sendMail h (mail_for h v b) with
               | Sent messageId =>
                   success = true
                   /\ message e = "Email alert sent successfully"
                   /\ data e = DMessageId messageId
               | SendFails msg =>
                   success = false /\ level e = error
                   /\ message e = "Failed to send email alert"
                   /\ data e = DText msg
               end
           | None =>
               success = false /\ level e = error
               /\ message e = "Failed to send email alert"
               /\ data e = DText (mail_error v)
           end
       | Throw msg =>
           success = false /\ level e = error
           /\ message e = "Failed to send email alert"
           /\ data e = DText msg
       end
    /\ forall p, failedPayment = encode p ->
         generation h failedPayment = Return (generated h p).
Proof.
  rewrite dispatch_run. simpl. rewrite appends_with_calls. simpl.
  destruct (appends_effect h (dispatch_log h failedPayment) w)
    as [(-> & _) _].
  unfold dispatch_log. rewrite entries_snoc, pushes_snoc, last_push_shift.
  eexists _, _. split; [reflexivity|]. split; [reflexivity|].
  split_and!.
  - destruct (dispatch_outcome_cases h failedPayment)
      as [[-> (id & ->)]|[-> (msg & ->)]]; simpl; done.
  - unfold dispatch_success, dispatch_outcome, dispatch_mail.
    destruct (generation h failedPayment) as [v|msg]; simpl; [|done].
    destruct (body_text v) as [b|]; simpl; [|done].
    by destruct (sendMail h (mail_for h v b)).
  - intros p ->. apply generation_encode.
Qed.

(** A 400 answer of the webhook endpoint and the error entry
    "Webhook processing failed" go together: when processing fails, the
    last entry of the log is that entry, and its data is the message the
    response body shows after "Webhook Error: "; when processing succeeds,
    the last entry is another one. *)
Theorem webhook_rejection_is_the_last_entry h b w :
  exists e,
    last (logs (webhook h b w).2) = Some e
    /\ if processing_fails b
       then (webhook h b w).1 = Return (webhook_error (rejection b))
            /\ level e = error
            /\ message e = "Webhook processing failed"
            /\ data e = DText (rejection b)
       else (webhook h b w).1 = Return acknowledged
            /\ message e <> "Webhook processing failed".
Proof.
  pose proof (last_logged h (POST_webhook b) w) as Hlast.
  assert ((webhook h b w).1 = Return (post_answer h (POST_webhook b)))
    as -> by (by rewrite webhook_run).
  simpl handle in *.
  unfold post_answer, processing_fails, rejection, transcript, announced,
    processing in *.
  destruct b as [msg|event]; simpl in *.
  { eexists. split; [by apply (Hlast [])|]. done. }
  destruct (read event "type") as [type|msg]; simpl in *;
    [|eexists; split; [by apply (Hlast [])|]; done].
  destruct (Value.ToString type) as [received|msg]; simpl in *;
    [|eexists; split; [by apply (Hlast [])|]; done].
  destruct (is_failure_event type); simpl in *;
    [|eexists; split; [by apply (Hlast [])|]; done].
  destruct (payment_of event) as [paymentData|msg]; simpl in *.
  - eexists. split.
    { apply (Hlast
        ((info, "Received Stripe event: " +:+ received, DNull)
         :: (warning, "Payment failure detected",
             DFailure (own paymentData "amount")
                      (own paymentData "customer")
                      (own paymentData "failure_code"))
         :: generation_log h paymentData) (dispatch_outcome h paymentData)).
      unfold dispatch_log. by rewrite !app_comm_cons. }
    split; [done|]. simpl.
    by destruct (dispatch_outcome_cases h paymentData)
      as [[_ (id & ->)]|[_ (msg & ->)]].
  - eexists. split.
    { by apply (Hlast
        [(info, "Received Stripe event: " +:+ received, DNull)]). }
    done.
Qed.

(** The requests [POST /test] and then [GET /logs]: the log returned ends
    with the entry of the test's outcome, at level info exactly when the
    test answered [success: true]. *)
Theorem test_result_shows_in_logs h w :
  exists success text total recent e w',
    serve h [POST_test; GET_logs] w
    = (Return [res_json (TestBody success text testPayment);
               res_json (LogsBody total recent)], w')
    /\ last recent = Some e
    /\ (success = true <-> level e = info)
    /\ message e = (if success then "Email alert sent successfully"
                    else "Failed to send email alert").
Proof.
  unfold serve, handle, bind. rewrite test_run.
  set (w1 := (appends h (transcript h POST_test)
                (with_calls w (outside_calls h POST_test))).2).
  assert (exists front : list LogCall, last (logs w1)
            = Some (stamped h (ticks w + length front)
                      (dispatch_outcome h testPayment))) as [front Hlast].
  { exists ((info, "Manual test triggered", DNull)
            :: generation_log h testPayment).
    subst w1. rewrite <- (last_logged h POST_test w); [|done].
    by rewrite (post_run h POST_test). }
  unfold get_logs, ret, post_answer.
  eexists _, _, _, _, _, _. split; [reflexivity|].
  unfold slice_last. rewrite last_drop_lt, Hlast.
  - split; [done|].
    destruct (dispatch_outcome_cases h testPayment)
      as [[-> (id & ->)]|[-> (msg & ->)]]; simpl; done.
  - destruct (logs w1); [done | simpl; lia].
Qed.

(** ** The status page *)

Lemma pushes_nonempty l es : l <> [] -> pushes l es <> [].
Proof.
  intros Hl. induction es as [|e es _] using rev_ind; [done|].
  rewrite pushes_snoc. intros Hnil.
  pose proof (last_push_shift (pushes l es) e) as Hlast.
  by rewrite Hnil in Hlast.
Qed.

(** Once the server has started, the log is never empty again, so
    [GET /] never answers "No activity yet": it reports the timestamp of
    the entry logged last. *)
Theorem root_reports_the_last_entry h reqs :
  exists e,
    last (logs (run h reqs boot).2) = Some e
    /\ (root (run h reqs boot).2).1
       = Return (res_json (RootBody "active" "Stripe Failed Payment Monitor"
           [ "GET / - This status page";
             "GET /health - Health check";
             "GET /logs - View recent logs";
             "POST /test - Test email alerts";
             "POST /webhook - Stripe webhook endpoint" ]
           (timestamp e))).
Proof.
  assert (logs (run h reqs boot).2 <> []) as Hne.
  { unfold run, bind. simpl.
    set (w1 := {| logs := _ |}).
    destruct (appending_serve h reqs w1) as (es & cs & Hlogs & _).
    rewrite Hlogs. by apply pushes_nonempty. }
  destruct (last (logs (run h reqs boot).2)) as [e|] eqn:Hlast.
  - exists e. split; [done|]. unfold root. simpl. by rewrite Hlast.
  - by apply last_None in Hlast.
Qed.

(** ** Responses do not depend on the state *)

Lemma line_of_entries h t cs :
  map line_of (entries h t cs) = map line_of (entries h 0 cs).
Proof.
  generalize 0. revert t.
  induction cs as [|[[lv msg] d] cs IH]; intros t t'; simpl; [done|].
  f_equal. apply IH.
Qed.

(** What a [POST] request answers, which calls it makes and which lines
    it prints do not depend on the state it starts from: the handlers
    never read the log buffer. *)
Theorem post_requests_ignore_the_state h req w1 w2 :
  is_post req = true ->
  (handle h req w1).1 = (handle h req w2).1
  /\ drop (length (calls w1)) (calls (handle h req w1).2)
     = drop (length (calls w2)) (calls (handle h req w2).2)
  /\ drop (length (stdout w1)) (stdout (handle h req w1).2)
     = drop (length (stdout w2)) (stdout (handle h req w2).2).
Proof.
  intros Hpost. rewrite !post_run by done. simpl.
  rewrite !appends_with_calls. simpl.
  destruct (appends_effect h (transcript h req) w1)
    as [(_ & -> & ->) _].
  destruct (appends_effect h (transcript h req) w2)
    as [(_ & -> & ->) _].
  rewrite !app_nil_r, !drop_app_length.
  split_and!; [done | done |].
  by rewrite (line_of_entries h (ticks w1)), (line_of_entries h (ticks w2)).
Qed.

(** The test request on the fresh state and after a first entry. *)
Lemma post_requests_ignore_the_state_witness :
  is_post POST_test = true
  /\ (handle offline_host POST_test boot).1
     = (handle offline_host POST_test
          (logged offline_host boot info "Manual test triggered" DNull)).1.
Proof.
  split; [reflexivity|].
  apply (post_requests_ignore_the_state offline_host POST_test boot
           (logged offline_host boot info "Manual test triggered" DNull)).
  reflexivity.
Defined.

(** ** Empty and missing fields *)

Lemma or_else_present x d : or_else (present x) d = or_else x d.
Proof. by destruct x as [[|c s]|]. Qed.

(** A field that holds the empty string is shown like a missing field,
    and a customer or payment method none of whose fields is set like a
    missing one: the prompt and the fallback content are the same. *)
Theorem blank_fields_count_as_missing p :
  prompt (without_blanks p) = prompt p
  /\ fallback (without_blanks p) = fallback p.
Proof.
  assert (customer_name (without_blanks p) = customer_name p) as Hn.
  { unfold customer_name. simpl.
    destruct (customer p) as [[[[|c s]|] [[|c' s']|]]|]; reflexivity. }
  assert (customer_email (without_blanks p) = customer_email p) as He.
  { unfold customer_email. simpl.
    destruct (customer p) as [[[[|c s]|] [[|c' s']|]]|]; reflexivity. }
  assert (subject_customer (without_blanks p) = subject_customer p) as Hs.
  { unfold subject_customer. simpl.
    destruct (customer p) as [[[[|c s]|] [[|c' s']|]]|]; reflexivity. }
  assert (currency_text (without_blanks p) = currency_text p) as Hc.
  { unfold currency_text. simpl.
    destruct (currency p) as [[|c s]|]; reflexivity. }
  assert (code_text (without_blanks p) = code_text p) as Hf
    by apply or_else_present.
  assert (reason_text (without_blanks p) = reason_text p) as Hr
    by apply or_else_present.
  assert (method_text (without_blanks p) = method_text p) as Hm.
  { unfold method_text. simpl.
    destruct (payment_method_details p) as [[[[|c s]|]]|]; reflexivity. }
  assert (amount_text (without_blanks p) = amount_text p) as Ha
    by reflexivity.
  unfold prompt, fallback, fallback_subject, fallback_body.
  by rewrite Hn, He, Hs, Hc, Hf, Hr, Hm, Ha.
Qed.

(** ** The HTML body *)

Lemma replace_newlines_length s :
  String.length (replace_newlines s) = String.length s + 3 * line_feeds s.
Proof.
  induction s as [|c s IH]; [done|].
  cbn [replace_newlines line_feeds].
  destruct (Ascii.eqb c "010").
  - change (S (S (S (S (String.length (replace_newlines s)))))
            = S (String.length s) + 3 * (1 + line_feeds s)).
    rewrite IH. lia.
  - change (S (String.length (replace_newlines s))
            = S (String.length s) + 3 * (0 + line_feeds s)).
    rewrite IH. lia.
Qed.

Lemma line_feeds_none s :
  line_feeds s = 0 ->
  forall c, In c (list_ascii_of_string s) -> c <> "010"%char.
Proof.
  induction s as [|c s IH]; simpl; [done|].
  destruct (Ascii.eqb c "010") eqn:Hc; simpl; [done|].
  intros Hs c' [<-|Hin]; [by apply Ascii.eqb_neq | by apply IH].
Qed.

(** The HTML body has no line feed left; it is three characters longer
    than the text for each line feed of the text; a text without line
    feeds is its own HTML body, so converting twice changes nothing. *)
Theorem html_body_has_no_line_feed s :
  line_feeds (replace_newlines s) = 0
  /\ String.length (replace_newlines s)
     = String.length s + 3 * line_feeds s
  /\ (line_feeds s = 0 -> replace_newlines s = s)
  /\ replace_newlines (replace_newlines s) = replace_newlines s.
Proof.
  assert (line_feeds (replace_newlines s) = 0) as Hnone.
  { induction s as [|c s IH]; simpl; [done|].
    destruct (Ascii.eqb c "010") eqn:Hc; simpl; [done|]. by rewrite Hc. }
  split_and!; [done | apply replace_newlines_length | |].
  - intros Hs. apply replace_newlines_none. by apply line_feeds_none.
  - apply replace_newlines_none. by apply line_feeds_none.
Qed.

(** ** The currency shown *)

Lemma upper_not_lower c : is_lower (upper c) = false.
Proof. by destruct c as [[] [] [] [] [] [] [] []]. Qed.

Lemma ascii_upper_not_lower s c :
  In c (list_ascii_of_string (ascii_upper s)) -> is_lower c = false.
Proof.
  induction s as [|c' s IH]; simpl; [done|].
  intros [<-|Hin]; [apply upper_not_lower | by apply IH].
Qed.

Lemma ascii_upper_length s : String.length (ascii_upper s) = String.length s.
Proof. induction s as [|c s IH]; simpl; [done | by rewrite IH]. Qed.

(** On an ASCII text the upper-case mapping works byte by byte. *)
Lemma toUpperCase_ascii s : is_ascii s = true -> toUpperCase s = ascii_upper s.
Proof.
  unfold toUpperCase. induction s as [|c s IH]; [done|].
  cbn [is_ascii toUpperCase_from ascii_upper].
  intros [Hc Hs]%andb_true_iff. rewrite Hc. by rewrite IH.
Qed.

(** The currency shown is never empty.  It is "USD" when the payment has
    no currency or an empty one, and otherwise the currency in upper
    case ("USD" again, should that be empty).  For a currency of ASCII
    characters, as the codes of the payment processor are, the upper
    case is taken letter by letter: the text shown has the length of the
    currency and no lower-case ASCII letter. *)
Theorem currency_text_is_upper_case p :
  currency_text p <> ""
  /\ match present (currency p) with
     | None => currency_text p = "USD"
     | Some code =>
         (currency_text p = toUpperCase code
          \/ toUpperCase code = "" /\ currency_text p = "USD")
         /\ (is_ascii code = true ->
             currency_text p = ascii_upper code
             /\ String.length (currency_text p) = String.length code
             /\ forall c, In c (list_ascii_of_string (currency_text p)) ->
                  is_lower c = false)
     end.
Proof.
  unfold currency_text.
  destruct (currency p) as [[|c s]|]; simpl; [done | | done].
  split; [by destruct (toUpperCase (String c s))|].
  split; [destruct (toUpperCase (String c s)); by auto|].
  intros Hascii. rewrite (toUpperCase_ascii (String c s) Hascii).
  split_and!; [done | apply (ascii_upper_length (String c s)) |].
  apply (ascii_upper_not_lower (String c s)).
Qed.

(** The currency of the test payment, and a currency beyond ASCII. *)
Lemma currency_text_is_upper_case_witness :
  currency_text testPayment = "USD"
  /\ String.length (currency_text testPayment) = String.length "usd"
  /\ toUpperCase "straße" = "STRASSE".
Proof.
  destruct (currency_text_is_upper_case testPayment) as (_ & _ & Hascii).
  destruct (Hascii eq_refl) as (Htext & Hlen & _).
  split; [exact Htext|]. split; [exact Hlen|]. vm_compute. reflexivity.
Defined.

(** ** How the amount is rounded *)

(** Below [10^21] the amount shown is the number of hundredths nearest to
    the quotient by 100, the larger one when two are as near: with [n]
    the hundredths shown and [m * 2^e] the quotient,
    [n - 1/2 <= 100 * m * 2^e < n + 1/2]. *)
Theorem amount_text_rounds_to_nearest_hundredth p s m e :
  Prim2SF (ToNumber (amount p) / 100) = S754_finite s m e ->
  PrimFloat.leb 1e21 (PrimFloat.abs (ToNumber (amount p) / 100)) = false ->
  exists n,
    (0 <= n)%Z
    /\ amount_text p = (if s then "-" else "") +:+ Number.two_places n
    /\ (2 * n * 2 ^ Z.max 0 (- e) - 2 ^ Z.max 0 (- e)
        <= 200 * Zpos m * 2 ^ Z.max 0 e
        < 2 * n * 2 ^ Z.max 0 (- e) + 2 ^ Z.max 0 (- e))%Z.
Proof.
  intros Hx Hsmall. unfold amount_text, Number.toFixed2.
  rewrite Hx, Hsmall. exists (Number.hundredths m e).
  pose proof (hundredths_nearest m e) as (Hn & Hnear).
  split; [done|]. split; [done | exact Hnear].
Qed.

(** 2999 minor units: the quotient is the double next to 29.99 and 2999
    is its nearest number of hundredths. *)
Lemma amount_text_rounds_to_nearest_hundredth_witness :
  exists n,
    (0 <= n)%Z
    /\ amount_text (bare_payment 2999) = "" +:+ Number.two_places n
    /\ (2 * n * 2 ^ Z.max 0 (- -48) - 2 ^ Z.max 0 (- -48)
        <= 200 * Zpos 8441434551552573 * 2 ^ Z.max 0 (-48)
        < 2 * n * 2 ^ Z.max 0 (- -48) + 2 ^ Z.max 0 (- -48))%Z.
Proof.
  apply (amount_text_rounds_to_nearest_hundredth (bare_payment 2999) false
           8441434551552573 (-48)); vm_compute; reflexivity.
Defined.

(** A payment without an amount is alerted with the amount "$NaN": the
    missing number is not replaced by a default, as the missing texts
    are. *)
Theorem missing_amount_is_shown_as_NaN p :
  amount p = None ->
  amount_text p = "NaN"
  /\ fallback_subject p
     = "🚨 Payment Failed - $NaN from " +:+ subject_customer p.
Proof.
  intros Hp.
  assert (amount_text p = "NaN") as Ha
    by (unfold amount_text; rewrite Hp; vm_compute; reflexivity).
  split; [done|]. unfold fallback_subject. by rewrite Ha.
Qed.

Lemma missing_amount_is_shown_as_NaN_witness :
  amount_text payment_without_amount = "NaN"
  /\ fallback_subject payment_without_amount
     = "🚨 Payment Failed - $NaN from "
       +:+ subject_customer payment_without_amount.
Proof.
  apply (missing_amount_is_shown_as_NaN payment_without_amount). reflexivity.
Defined.

(** ** Payments of the specified shape, and other values *)

(** For a payment of the shape the specification gives it, no expression
    of the two templates throws: the prompt and the fallback content are
    the texts [prompt] and [fallback] give, the generator returns, and it
    asks the language model exactly once. *)
Theorem templates_of_a_FailedPayment p :
  prompt_of p = Return (prompt p)
  /\ fallback_of p = Return (fallback p)
  /\ forall h w,
       (generateEmailContent h p w).1 = Return (generated h p)
       /\ generations (drop (length (calls w))
                         (calls (generateEmailContent h p w).2)) = 1.
Proof.
  split; [apply prompt_of_encode|]. split; [apply fallback_of_encode|].
  intros h w. rewrite generate_any, generation_encode. split; [done|].
  simpl. rewrite appends_with_calls. simpl.
  destruct (appends_effect h (generation_log h p) w) as [(_ & _ & ->) _].
  by rewrite app_nil_r, drop_app_length, generation_calls_encode.
Qed.

(** The default a template shows does not decide whether it throws. *)
Lemma customer_email_of_throw (v : json) d d' msg :
  customer_email_of v d = Throw msg -> customer_email_of v d' = Throw msg.
Proof.
  unfold customer_email_of, shown.
  destruct (read v "customer") as [c|]; simpl; [|done].
  by destruct (Value.ToBoolean (optional c "email")).
Qed.

(** When the prompt template throws, the fallback templates throw too:
    they hold the same expressions. *)
Lemma fallback_throws (v : json) msg :
  prompt_of v = Throw msg -> exists msg', fallback_of v = Throw msg'.
Proof.
  unfold prompt_of, fallback_of.
  destruct (customer_email_of v "Not provided") as [e|m] eqn:He.
  - destruct (amount_of v), (customer_email_of v "Unknown Customer"),
      (customer_name_of v), (currency_of v), (failure_code_of v),
      (failure_message_of v), (payment_method_of v);
      simpl; intros; try discriminate; by eauto.
  - rewrite (customer_email_of_throw v _ "Unknown Customer" m He).
    intros _. destruct (amount_of v); simpl; by eauto.
Qed.

Lemma generation_throws h (v : json) msg :
  prompt_of v = Throw msg -> dispatch_mail h v = None.
Proof.
  intros Hp. destruct (fallback_throws v msg Hp) as [msg' Hf].
  unfold dispatch_mail, generation. by rewrite Hp, Hf.
Qed.

(** ** The calls of a run *)

Lemma serve_calls h reqs w :
  calls (serve h reqs w).2 = calls w ++ concat (map (outside_calls h) reqs).
Proof.
  revert w. induction reqs as [|req reqs IH]; intros w; simpl.
  - by rewrite app_nil_r.
  - destruct (handle_status h req w) as (res & w1 & Hrun & _).
    pose proof (handle_calls h req w) as Hc. rewrite Hrun in Hc. simpl in Hc.
    unfold bind. rewrite Hrun.
    pose proof (IH w1) as Hrest.
    destruct (serve h reqs w1) as [[rs|msg] w2]; simpl in *;
      by rewrite Hrest, Hc, app_assoc.
Qed.

Lemma outside_calls_counts h req :
  dispatches (outside_calls h req) = (if alerts req then 1 else 0)
  /\ generations (outside_calls h req) = (if asks_model req then 1 else 0)
  /\ length (mails (outside_calls h req)) <= (if asks_model req then 1 else 0).
Proof.
  unfold outside_calls, alerts, asks_model.
  destruct (payment req) as [v|]; [|done].
  unfold dispatch_calls, generation_calls, dispatches, generations, mails.
  destruct (prompt_of v) as [text|msg] eqn:Hp.
  - destruct (dispatch_mail h v); simpl; split_and!; (reflexivity || lia).
  - by rewrite (generation_throws h v msg Hp).
Qed.

(** Over a whole run, the dispatcher is called once for each request that
    alerts (the test request, a failure event with a payment object) and
    for no other request.  The language model is asked once for each of
    these whose prompt can be built, which is every one whose payment has
    the specified shape, and the transport is handed at most one message
    for each of them.  So status pages, health checks, log views, ignored
    events and rejected webhooks never send mail, and neither does an
    alert whose prompt cannot be built. *)
Theorem one_dispatch_per_alerting_request h reqs :
  dispatches (calls (run h reqs boot).2) = length (List.filter alerts reqs)
  /\ generations (calls (run h reqs boot).2)
     = length (List.filter asks_model reqs)
  /\ length (mails (calls (run h reqs boot).2))
     <= length (List.filter asks_model reqs)
  /\ length (List.filter asks_model reqs) <= length (List.filter alerts reqs)
  /\ asks_model POST_test = true
  /\ forall b received p,
       processing b = Return (received, Some (encode p)) ->
       asks_model (POST_webhook b) = true.
Proof.
  assert (calls (run h reqs boot).2 = concat (map (outside_calls h) reqs))
    as ->.
  { unfold run, bind. simpl. by rewrite serve_calls. }
  split_and!.
  1-4: induction reqs as [|req reqs IH]; simpl; [done|];
    destruct (outside_calls_counts h req) as (Hd & Hg & Hm);
    unfold dispatches, generations, mails in *;
    rewrite ?List.filter_app, ?omap_app, ?length_app, ?IH, ?Hd, ?Hg;
    unfold alerts, asks_model in *;
    destruct (payment req) as [v|]; simpl in *; try lia;
    destruct (prompt_of v); simpl in *; lia.
  - reflexivity.
  - intros b received p Hb. unfold asks_model, payment.
    by rewrite Hb, prompt_of_encode.
Qed.

(** An alert that never reaches the language model: the failure event
    whose payment has the number 5 as its currency is acknowledged and
    dispatched, both templates throw, and the two errors are logged. *)
Lemma alert_without_a_request_to_the_model :
  alerts (POST_webhook (JSON event_with_odd_currency)) = true
  /\ asks_model (POST_webhook (JSON event_with_odd_currency)) = false
  /\ (webhook offline_host (JSON event_with_odd_currency) boot).1
     = Return acknowledged
  /\ calls (webhook offline_host (JSON event_with_odd_currency) boot).2
     = [Dispatch payment_with_odd_currency]
  /\ map (fun e => (level e, message e, data e))
       (logs (webhook offline_host (JSON event_with_odd_currency) boot).2)
     = [ (info, "Received Stripe event: charge.failed", DNull);
         (warning, "Payment failure detected",
          DFailure (Some (JNum 500)) None None);
         (error, "Failed to generate email content with OpenAI",
          DText "failedPayment.currency?.toUpperCase is not a function");
         (error, "Failed to send email alert",
          DText "failedPayment.currency?.toUpperCase is not a function") ].
Proof. split_and!; reflexivity. Qed.
